(** * jsonlogviewer: line index and viewport navigation

  A shallow embedding of two packages of the repository:

  - [internal/index]: [buildOffsets], [LineCount], [GetLine],
    [GetLineString], [Open], [OpenReader];
  - [internal/nav]: the [Viewport] state machine, its [clamp] step and
    every motion command.

  Go's [int] is modelled as a 64-bit two's-complement integer carried by
  [Z]; every arithmetic operation of the source that may leave the range is
  written with its wrap-around ([Int64.add], [Int64.sub], [Int64.mul]).
  [uint64] values are carried by [Z] as well, with [U64.of_Z] at every
  conversion. *)

From Stdlib Require Import ZArith List Bool Lia Sorted.
From Stdlib.Strings Require Import String Ascii Byte.
Import ListNotations.

Local Open Scope Z_scope.

(* ================================================================= *)
(** ** Machine integers *)

Module Int64.

Definition modulus : Z := 2 ^ 64.
Definition min_int : Z := - 2 ^ 63.
Definition max_int : Z := 2 ^ 63 - 1.

(** The values an [int] can hold. *)
Definition in_range (z : Z) : Prop := min_int <= z <= max_int.

(** Reduction of a mathematical integer to its 64-bit signed
    representative. *)
Definition wrap (z : Z) : Z := (z - min_int) mod modulus + min_int.

Definition add (a b : Z) : Z := wrap (a + b).
Definition sub (a b : Z) : Z := wrap (a - b).
Definition mul (a b : Z) : Z := wrap (a * b).

(** Go's [/] truncates toward zero; the divisors of the source are the
    positive constants 2 and 100, so the quotient never leaves the
    range. *)
Definition quot (a b : Z) : Z := Z.quot a b.

End Int64.

Module U64.

(** Conversion to [uint64]: reduction modulo 2^64. *)
Definition of_Z (z : Z) : Z := z mod Int64.modulus.

Definition sub (a b : Z) : Z := of_Z (a - b).

End U64.

(* ================================================================= *)
(** ** Package nav: the viewport *)

Module Nav.

(** [type Viewport struct { TotalLines, Height, Cursor, Offset int }] *)
Record Viewport : Type := mkViewport {
  TotalLines : Z;
  Height : Z;
  Cursor : Z;
  Offset : Z
}.

Definition set_TotalLines (t : Z) (v : Viewport) : Viewport :=
  mkViewport t (Height v) (Cursor v) (Offset v).
Definition set_Height (h : Z) (v : Viewport) : Viewport :=
  mkViewport (TotalLines v) h (Cursor v) (Offset v).
Definition set_Cursor (c : Z) (v : Viewport) : Viewport :=
  mkViewport (TotalLines v) (Height v) c (Offset v).
Definition set_Offset (o : Z) (v : Viewport) : Viewport :=
  mkViewport (TotalLines v) (Height v) (Cursor v) o.

(** [func (v *Viewport) clamp()] *)
Definition clamp (v : Viewport) : Viewport :=
  if TotalLines v <? 1 then set_Offset 1 (set_Cursor 1 v)
  else
    let v := if Cursor v <? 1 then set_Cursor 1 v else v in
    let v := if Cursor v >? TotalLines v
             then set_Cursor (TotalLines v) v else v in
    let v := if Cursor v <? Offset v then set_Offset (Cursor v) v else v in
    let maxOffset := Int64.add (Int64.sub (Cursor v) (Height v)) 1 in
    let maxOffset := if maxOffset <? 1 then 1 else maxOffset in
    let v := if Cursor v >=? Int64.add (Offset v) (Height v)
             then set_Offset maxOffset v else v in
    let v := if Offset v <? 1 then set_Offset 1 v else v in
    let maxValidOffset :=
      Int64.add (Int64.sub (TotalLines v) (Height v)) 1 in
    let maxValidOffset :=
      if maxValidOffset <? 1 then 1 else maxValidOffset in
    if Offset v >? maxValidOffset then set_Offset maxValidOffset v else v.

(** The three phases of [clamp] on plain values, used to reason about
    it: the cursor clamp, the two "ensure cursor is visible" updates of
    the offset, and the final clamp of the offset. *)
Definition clamp_cursor (total c : Z) : Z :=
  let c := if c <? 1 then 1 else c in
  if c >? total then total else c.

Definition reveal_offset (h c o : Z) : Z :=
  let o := if c <? o then c else o in
  let maxOffset := Int64.add (Int64.sub c h) 1 in
  let maxOffset := if maxOffset <? 1 then 1 else maxOffset in
  if c >=? Int64.add o h then maxOffset else o.

Definition bound_offset (total h o : Z) : Z :=
  let o := if o <? 1 then 1 else o in
  let maxValidOffset := Int64.add (Int64.sub total h) 1 in
  let maxValidOffset :=
    if maxValidOffset <? 1 then 1 else maxValidOffset in
  if o >? maxValidOffset then maxValidOffset else o.

(** [func New(totalLines, height int) *Viewport] *)
Definition New (totalLines height : Z) : Viewport :=
  clamp (mkViewport totalLines height 1 1).

(** [func (v *Viewport) SetHeight(height int)] *)
Definition SetHeight (height : Z) (v : Viewport) : Viewport :=
  let height := if height <? 1 then 1 else height in
  clamp (set_Height height v).

(** [func (v *Viewport) SetTotalLines(totalLines int)] *)
Definition SetTotalLines (totalLines : Z) (v : Viewport) : Viewport :=
  clamp (set_TotalLines totalLines v).

(** [func (v *Viewport) CursorRelative() int] *)
Definition CursorRelative (v : Viewport) : Z :=
  Int64.sub (Cursor v) (Offset v).

(** [func (v *Viewport) VisibleRange() (start, end int)] *)
Definition VisibleRange (v : Viewport) : Z * Z :=
  let start := Offset v in
  let end_ := Int64.sub (Int64.add (Offset v) (Height v)) 1 in
  let end_ := if end_ >? TotalLines v then TotalLines v else end_ in
  (start, end_).

(** [func (v *Viewport) IsVisible(line int) bool] *)
Definition IsVisible (v : Viewport) (line : Z) : bool :=
  let '(start, end_) := VisibleRange v in
  (line >=? start) && (line <=? end_).

(** [func (v *Viewport) Down(n int)] *)
Definition Down (n : Z) (v : Viewport) : Viewport :=
  if n <? 1 then v
  else clamp (set_Cursor (Int64.add (Cursor v) n) v).

(** [func (v *Viewport) Up(n int)] *)
Definition Up (n : Z) (v : Viewport) : Viewport :=
  if n <? 1 then v
  else clamp (set_Cursor (Int64.sub (Cursor v) n) v).

(** [func (v *Viewport) PageDown()] *)
Definition PageDown (v : Viewport) : Viewport :=
  let v := set_Offset (Int64.add (Offset v) (Height v)) v in
  let v := set_Cursor (Offset v) v in
  clamp v.

(** [func (v *Viewport) PageUp()] *)
Definition PageUp (v : Viewport) : Viewport :=
  let v := set_Offset (Int64.sub (Offset v) (Height v)) v in
  let v := if Offset v <? 1 then set_Offset 1 v else v in
  let v := set_Cursor
             (Int64.sub (Int64.add (Offset v) (Height v)) 1) v in
  let v := if Cursor v >? TotalLines v
           then set_Cursor (TotalLines v) v else v in
  clamp v.

(** [func (v *Viewport) HalfPageDown()] *)
Definition HalfPageDown (v : Viewport) : Viewport :=
  let half := Int64.quot (Height v) 2 in
  let half := if half <? 1 then 1 else half in
  let v := set_Offset (Int64.add (Offset v) half) v in
  let v := set_Cursor (Int64.add (Cursor v) half) v in
  clamp v.

(** [func (v *Viewport) HalfPageUp()] *)
Definition HalfPageUp (v : Viewport) : Viewport :=
  let half := Int64.quot (Height v) 2 in
  let half := if half <? 1 then 1 else half in
  let v := set_Offset (Int64.sub (Offset v) half) v in
  let v := set_Cursor (Int64.sub (Cursor v) half) v in
  clamp v.

(** [func (v *Viewport) ScrollDown(n int)] *)
Definition ScrollDown (n : Z) (v : Viewport) : Viewport :=
  if n <? 1 then v
  else clamp (set_Offset (Int64.add (Offset v) n) v).

(** [func (v *Viewport) ScrollUp(n int)] *)
Definition ScrollUp (n : Z) (v : Viewport) : Viewport :=
  if n <? 1 then v
  else clamp (set_Offset (Int64.sub (Offset v) n) v).

(** [func (v *Viewport) Goto(line int)] *)
Definition Goto (line : Z) (v : Viewport) : Viewport :=
  clamp (set_Cursor line v).

(** [func (v *Viewport) GotoTop()] *)
Definition GotoTop (v : Viewport) : Viewport := Goto 1 v.

(** [func (v *Viewport) GotoBottom()] *)
Definition GotoBottom (v : Viewport) : Viewport := Goto (TotalLines v) v.

(** [func (v *Viewport) GotoLineTop()] *)
Definition GotoLineTop (v : Viewport) : Viewport :=
  clamp (set_Cursor (Offset v) v).

(** [func (v *Viewport) GotoLineMiddle()] *)
Definition GotoLineMiddle (v : Viewport) : Viewport :=
  let v := set_Cursor
             (Int64.add (Offset v) (Int64.quot (Height v) 2)) v in
  let v := if Cursor v >? TotalLines v
           then set_Cursor (TotalLines v) v else v in
  clamp v.

(** [func (v *Viewport) GotoLineBottom()] *)
Definition GotoLineBottom (v : Viewport) : Viewport :=
  let v := set_Cursor
             (Int64.sub (Int64.add (Offset v) (Height v)) 1) v in
  let v := if Cursor v >? TotalLines v
           then set_Cursor (TotalLines v) v else v in
  clamp v.

(** [func (v *Viewport) JumpToPercent(percent int)] *)
Definition JumpToPercent (percent : Z) (v : Viewport) : Viewport :=
  let percent := if percent <? 1 then 1 else percent in
  let percent := if percent >? 100 then 100 else percent in
  let line := Int64.quot (Int64.mul (TotalLines v) percent) 100 in
  let line := if line <? 1 then 1 else line in
  let line := if line >? TotalLines v then TotalLines v else line in
  Goto line v.

(** [func (v *Viewport) ClickAt(relativeRow int)] *)
Definition ClickAt (relativeRow : Z) (v : Viewport) : Viewport :=
  let relativeRow := if relativeRow <? 0 then 0 else relativeRow in
  let relativeRow :=
    if relativeRow >=? Height v then Int64.sub (Height v) 1
    else relativeRow in
  clamp (set_Cursor (Int64.add (Offset v) relativeRow) v).

(** The navigation commands, as the input-handling layer issues them. *)
Inductive Command : Type :=
| CDown (n : Z) | CUp (n : Z)
| CPageDown | CPageUp | CHalfPageDown | CHalfPageUp
| CScrollDown (n : Z) | CScrollUp (n : Z)
| CGoto (line : Z) | CGotoTop | CGotoBottom
| CGotoLineTop | CGotoLineMiddle | CGotoLineBottom
| CJumpToPercent (percent : Z) | CClickAt (relativeRow : Z).

(** The [int] argument of a command, when it has one. *)
Definition arg_of (c : Command) : option Z :=
  match c with
  | CDown n | CUp n | CScrollDown n | CScrollUp n => Some n
  | CGoto l => Some l
  | CJumpToPercent p => Some p
  | CClickAt r => Some r
  | _ => None
  end.

Definition well_typed (c : Command) : Prop :=
  match arg_of c with
  | Some z => Int64.in_range z
  | None => True
  end.

Definition run (c : Command) (v : Viewport) : Viewport :=
  match c with
  | CDown n => Down n v
  | CUp n => Up n v
  | CPageDown => PageDown v
  | CPageUp => PageUp v
  | CHalfPageDown => HalfPageDown v
  | CHalfPageUp => HalfPageUp v
  | CScrollDown n => ScrollDown n v
  | CScrollUp n => ScrollUp n v
  | CGoto l => Goto l v
  | CGotoTop => GotoTop v
  | CGotoBottom => GotoBottom v
  | CGotoLineTop => GotoLineTop v
  | CGotoLineMiddle => GotoLineMiddle v
  | CGotoLineBottom => GotoLineBottom v
  | CJumpToPercent p => JumpToPercent p v
  | CClickAt r => ClickAt r v
  end.

(** States reachable from [New] through commands, [SetHeight] and
    [SetTotalLines]; every argument is an [int]. *)
Inductive reachable : Viewport -> Prop :=
| reach_New : forall totalLines height,
    Int64.in_range totalLines -> Int64.in_range height -> 1 <= height ->
    reachable (New totalLines height)
| reach_run : forall c v,
    reachable v -> well_typed c -> reachable (run c v)
| reach_SetHeight : forall h v,
    reachable v -> Int64.in_range h -> reachable (SetHeight h v)
| reach_SetTotalLines : forall n v,
    reachable v -> Int64.in_range n -> reachable (SetTotalLines n v).

(** The consistency of a viewport: every field is an [int], the height
    is positive, and cursor and offset are as the data model requires. *)
Definition consistent (v : Viewport) : Prop :=
  Int64.in_range (TotalLines v) /\
  1 <= Height v <= Int64.max_int /\
  (1 <= TotalLines v ->
     1 <= Cursor v <= TotalLines v /\
     Offset v <= Cursor v <= Offset v + Height v - 1 /\
     1 <= Offset v <= Z.max 1 (TotalLines v - Height v + 1)) /\
  (TotalLines v < 1 -> Cursor v = 1 /\ Offset v = 1).

(** [n] applications of a state transformer. *)
Fixpoint repeat_cmd (n : nat) (f : Viewport -> Viewport) (v : Viewport)
  : Viewport :=
  match n with
  | O => v
  | S n' => repeat_cmd n' f (f v)
  end.

End Nav.

(* ================================================================= *)
(** ** Package index: the line index *)

Module Index.

(** The package's error values.  [ErrWrapped] stands for the errors made
    by [fmt.Errorf("...: %w", err)] around a failure of the operating
    system or of the reader; such a value is never equal to one of the
    two sentinels. *)
Inductive Error : Type :=
| ErrInvalidLine
| ErrEmptyFile
| ErrWrapped (context : string) (cause : string).

(** Outcome of a function that returns [(T, error)] and may also stop with
    a run-time panic (index or slice bounds out of range). *)
Inductive result (A : Type) : Type :=
| Ok (a : A)
| Err (e : Error)
| Panic.
Arguments Ok {A} a.
Arguments Err {A} e.
Arguments Panic {A}.

Definition bind {A B : Type} (r : result A) (k : A -> result B)
  : result B :=
  match r with
  | Ok a => k a
  | Err e => Err e
  | Panic => Panic
  end.

Notation "x <- r ;; k" := (bind r (fun x => k))
  (at level 61, r at next level, right associativity).

Definition newline : byte := x0a.
Definition carriage_return : byte := x0d.

(** [len(s)] as an [int]. *)
Definition len {A : Type} (s : list A) : Z := Z.of_nat (List.length s).

(** [s[i]]: panics when [i] is out of range. *)
Definition index {A : Type} (s : list A) (i : Z) : result A :=
  if (i <? 0) || (i >=? len s) then Panic
  else match nth_error s (Z.to_nat i) with
       | Some a => Ok a
       | None => Panic
       end.

(** [s[lo:hi]]: panics unless [0 <= lo <= hi <= len(s)] (the capacity of
    the indexed data is taken to be its length). *)
Definition slice {A : Type} (s : list A) (lo hi : Z) : result (list A) :=
  if (lo <? 0) || (hi <? lo) || (hi >? len s) then Panic
  else Ok (firstn (Z.to_nat (hi - lo)) (skipn (Z.to_nat lo) s)).

(** [type Index struct { data []byte; offsets []uint64;
    reader io.Closer; name string }].  [reader] records only whether a
    closer is attached. *)
Record Index : Type := mkIndex {
  data : list byte;
  offsets : list Z;
  reader : bool;
  name : string
}.

Definition set_offsets (o : list Z) (idx : Index) : Index :=
  mkIndex (data idx) o (reader idx) (name idx).

(** The loop of [buildOffsets]: [i] is the loop counter, [rest] the bytes
    [data[i:]] still to visit, [n] is [len(idx.data)]. *)
Fixpoint scan (n : Z) (i : Z) (rest : list byte) (offs : list Z)
  : list Z :=
  match rest with
  | [] => offs
  | b :: rest' =>
      let offs :=
        if Byte.eqb b newline && (Int64.add i 1 <? n)
        then offs ++ [U64.of_Z (Int64.add i 1)]
        else offs in
      scan n (Int64.add i 1) rest' offs
  end.

(** [func (idx *Index) buildOffsets() error]: the index after the call,
    and the error returned. *)
Definition buildOffsets (idx : Index) : Index * option Error :=
  if len (data idx) =? 0 then (idx, Some ErrEmptyFile)
  else
    let offs := offsets idx ++ [0] in
    let offs := scan (len (data idx)) 0 (data idx) offs in
    let offs :=
      if (len offs >? 1)
         && (Int64.wrap (last offs 0) >=? len (data idx))
      then removelast offs
      else offs in
    (set_offsets offs idx, None).

(** What the operating system answers to [mmap.Open(path)] followed by
    [ReadAt]: a failure of either call, or the bytes of the file. *)
Inductive MmapOutcome : Type :=
| MmapOpenFails (cause : string)
| MmapReadFails (cause : string)
| MmapData (bytes : list byte).

(** [func Open(path string) ( *Index, error)], given the file system's
    answer for each path. *)
Definition Open (fs : string -> MmapOutcome) (path : string)
  : option Index * option Error :=
  match fs path with
  | MmapOpenFails e =>
      (None, Some (ErrWrapped "failed to mmap file" e))
  | MmapReadFails e =>
      (None, Some (ErrWrapped "failed to read mmap data" e))
  | MmapData bytes =>
      let idx := mkIndex bytes [] true path in
      match buildOffsets idx with
      | (_, Some err) => (None, Some err)
      | (idx, None) => (Some idx, None)
      end
  end.

(** What [io.ReadAll(r)] answers: a failure, or the bytes read. *)
Inductive ReadOutcome : Type :=
| ReadFails (cause : string)
| ReadData (bytes : list byte).

(** [func OpenReader(r io.Reader, name string) ( *Index, error)] *)
Definition OpenReader (r : ReadOutcome) (name : string)
  : option Index * option Error :=
  match r with
  | ReadFails e => (None, Some (ErrWrapped "failed to read data" e))
  | ReadData bytes =>
      let idx := mkIndex bytes [] false name in
      match buildOffsets idx with
      | (_, Some err) => (None, Some err)
      | (idx, None) => (Some idx, None)
      end
  end.

(** [func (idx *Index) LineCount() int] *)
Definition LineCount (idx : Index) : Z := len (offsets idx).

(** [func (idx *Index) GetLine(n int) ([]byte, error)] *)
Definition GetLine (idx : Index) (n : Z) : result (list byte) :=
  if (n <? 1) || (n >? len (offsets idx)) then Err ErrInvalidLine
  else
    start <- index (offsets idx) (Int64.sub n 1) ;;
    end_ <-
      (if n <? len (offsets idx) then
         end_ <- index (offsets idx) n ;;
         if end_ >? 0 then
           b <- index (data idx) (U64.sub end_ 1) ;;
           if Byte.eqb b newline then Ok (U64.sub end_ 1) else Ok end_
         else Ok end_
       else Ok (U64.of_Z (len (data idx)))) ;;
    end_ <-
      (if end_ >? start then
         b <- index (data idx) (U64.sub end_ 1) ;;
         if Byte.eqb b carriage_return then Ok (U64.sub end_ 1)
         else Ok end_
       else Ok end_) ;;
    slice (data idx) start end_.

(** [func (idx *Index) GetLineString(n int) (string, error)] *)
Definition GetLineString (idx : Index) (n : Z) : result string :=
  match GetLine idx n with
  | Ok bytes => Ok (string_of_list_byte bytes)
  | Err e => Err e
  | Panic => Panic
  end.

(** Number of newline bytes in a byte sequence. *)
Definition count_newlines (s : list byte) : Z :=
  Z.of_nat (count_occ Byte.byte_eq_dec s newline).

(** What the offset table of a built index looks like: it starts with
    offset 0, increases strictly, and every entry is a position inside the
    data. *)
Definition well_formed (idx : Index) : Prop :=
  nth_error (offsets idx) 0 = Some 0 /\
  StronglySorted Z.lt (offsets idx) /\
  Forall (fun o => 0 <= o < len (data idx)) (offsets idx) /\
  len (offsets idx) <= len (data idx) <= Int64.max_int.

(** The bytes of a string literal, and the two line terminators as
    strings, to write test inputs. *)
Definition bytes_of (s : string) : list byte := list_byte_of_string s.
Definition LF : string := String (ascii_of_byte newline) EmptyString.
Definition CRLF : string :=
  String (ascii_of_byte carriage_return) LF.

(** Test inputs of [index_test.go]. *)
Definition three_lines : list byte :=
  bytes_of ("line1" ++ LF ++ "line2" ++ LF ++ "line3" ++ LF).
Definition two_lines : list byte :=
  bytes_of ("line1" ++ LF ++ "line2" ++ LF).
Definition blank_lines : list byte := bytes_of (LF ++ LF ++ LF).

(** The index [OpenReader] builds for [bytes], if any. *)
Definition index_of (bytes : list byte) : option Index :=
  fst (OpenReader (ReadData bytes) "test").

(** What [os.Open(path)] answers: a failure, or a file whose contents
    [io.ReadAll] then reads. *)
Inductive FileOutcome : Type :=
| FileOpenFails (cause : string)
| FileOpened (contents : ReadOutcome).

(** [func OpenFile(path string) ( *Index, error)], given the file
    system's answer for each path. *)
Definition OpenFile (fs : string -> FileOutcome) (path : string)
  : option Index * option Error :=
  match fs path with
  | FileOpenFails e => (None, Some (ErrWrapped "failed to open file" e))
  | FileOpened r => OpenReader r path
  end.

(** [func (idx *Index) Close() error], given what [Close] of the
    attached reader answers. *)
Definition Close (reader_close : option Error) (idx : Index)
  : option Error :=
  if reader idx then reader_close else None.

(** [func (idx *Index) Name() string] *)
Definition Name (idx : Index) : string := name idx.

End Index.

(* ================================================================= *)
(** ** Package main: choosing the log source *)

Module Main.

Import Index.

(** [type Config struct { Debug bool; FilePath string }] *)
Record Config : Type := mkConfig {
  Debug : bool;
  FilePath : string
}.

(** What [os.Stat(path)] answers: an error for which [os.IsNotExist]
    holds, another error, or the file information, of which only
    [IsDir()] is read. *)
Inductive StatOutcome : Type :=
| StatNotExist
| StatFails (cause : string)
| StatInfo (isDir : bool).

(** The operating system as [openSource] sees it.  [stdin_stat] is the
    answer of [os.Stdin.Stat()]: [None] for an error, otherwise whether
    the mode has the [os.ModeCharDevice] bit. *)
Record System : Type := mkSystem {
  stdin_stat : option bool;
  stdin_read : ReadOutcome;
  stat : string -> StatOutcome;
  mmap_fs : string -> MmapOutcome;
  file_fs : string -> FileOutcome
}.

(** The errors [openSource] returns: its own [fmt.Errorf] values, and the
    errors of package index, passed on as they are. *)
Inductive SourceError : Type :=
| NoInput
| FileNotFound (path : string)
| CannotAccess (cause : string)
| PathIsDirectory (path : string)
| IndexError (e : Error).

Definition pass (r : option Index * option Error)
  : option Index * option SourceError :=
  (fst r, option_map IndexError (snd r)).

(** [func isStdinEmpty() bool] *)
Definition isStdinEmpty (sys : System) : bool :=
  match stdin_stat sys with
  | None => true
  | Some char_device => char_device
  end.

(** [func openSource(config Config) ( *index.Index, error)] *)
Definition openSource (sys : System) (config : Config)
  : option Index * option SourceError :=
  if String.eqb (FilePath config) "" then
    if isStdinEmpty sys
    then (None, Some NoInput)
    else pass (OpenReader (stdin_read sys) "stdin")
  else
    match stat sys (FilePath config) with
    | StatNotExist => (None, Some (FileNotFound (FilePath config)))
    | StatFails e => (None, Some (CannotAccess e))
    | StatInfo true => (None, Some (PathIsDirectory (FilePath config)))
    | StatInfo false =>
        match Open (mmap_fs sys) (FilePath config) with
        | (idx, None) => (idx, None)
        | (_, Some _) => pass (OpenFile (file_fs sys) (FilePath config))
        end
    end.

End Main.

(* ================================================================= *)
(** ** Package parser: table columns of a log line *)

Module Parser.

(** What gjson answers for a raw line: whether
    [gjson.ParseBytes(raw).Exists()], and
    [gjson.ParseBytes(raw).Get(key).String()] for each key. *)
Record Gjson : Type := mkGjson {
  Exists : list byte -> bool;
  Get : list byte -> string -> string
}.

(** [type LogEntry struct { Row int; Time, Level, Msg string;
    Raw []byte }] *)
Record LogEntry : Type := mkLogEntry {
  Row : Z;
  Time : string;
  Level : string;
  Msg : string;
  Raw : list byte
}.

Inductive ParseError : Type :=
| EmptyLine
| InvalidJSON.

(** [len(s)] of a string, in bytes. *)
Definition slen (s : string) : Z := Z.of_nat (String.length s).

Definition maxMsgLen : Z := 100.

(** [func (p *Parser) Parse(raw []byte, row int) ( *LogEntry, error)] *)
Definition Parse (g : Gjson) (raw : list byte) (row : Z)
  : option LogEntry * option ParseError :=
  if Index.len raw =? 0 then (None, Some EmptyLine)
  else if negb (Exists g raw) then (None, Some InvalidJSON)
  else
    let time := Get g raw "time" in
    let level := Get g raw "level" in
    let msg := Get g raw "msg" in
    let time := if String.eqb time "" then Get g raw "Time" else time in
    let time := if String.eqb time "" then Get g raw "timestamp" else time in
    let time := if String.eqb time "" then Get g raw "Timestamp" else time in
    let time := if String.eqb time "" then Get g raw "ts" else time in
    let level := if String.eqb level "" then Get g raw "Level" else level in
    let level :=
      if String.eqb level "" then Get g raw "severity" else level in
    let level :=
      if String.eqb level "" then Get g raw "Severity" else level in
    let msg := if String.eqb msg "" then Get g raw "Msg" else msg in
    let msg := if String.eqb msg "" then Get g raw "message" else msg in
    let msg := if String.eqb msg "" then Get g raw "Message" else msg in
    let msg :=
      if slen msg >? maxMsgLen
      then (substring 0 (Z.to_nat (maxMsgLen - 3)) msg ++ "...")%string
      else msg in
    (Some (mkLogEntry row time level msg raw), None).

(** [func LevelColor(level string) string]; [ToUpper] is
    [strings.ToUpper]. *)
Definition LevelColor (ToUpper : string -> string) (level : string)
  : string :=
  let u := ToUpper level in
  if String.eqb u "DEBUG" || String.eqb u "TRACE" then "#808080"
  else if String.eqb u "INFO" then "#00FF00"
  else if String.eqb u "WARN" || String.eqb u "WARNING" then "#FFFF00"
  else if String.eqb u "ERROR" then "#FF0000"
  else if String.eqb u "FATAL" || String.eqb u "PANIC" then "#FF00FF"
  else "".

(** [func ShortenLevel(level string) string] *)
Definition ShortenLevel (ToUpper : string -> string) (level : string)
  : string :=
  let u := ToUpper level in
  if String.eqb u "DEBUG" then "DBG"
  else if String.eqb u "INFO" then "INF"
  else if String.eqb u "WARN" || String.eqb u "WARNING" then "WRN"
  else if String.eqb u "ERROR" then "ERR"
  else if String.eqb u "FATAL" then "FTL"
  else if String.eqb u "PANIC" then "PNC"
  else if String.eqb u "TRACE" then "TRC"
  else if slen level >? 3 then substring 0 3 level
  else level.

(** The first non-empty string of a list, or the empty string. *)
Fixpoint first_nonempty (l : list string) : string :=
  match l with
  | [] => ""
  | s :: l' => if String.eqb s "" then first_nonempty l' else s
  end.

End Parser.

(* ================================================================= *)
(** ** Package pool: a typed pool with reset on return *)

Module Pool.

Section GenSyncPool.

Context {T : Type}.

(** [type GenSyncPool[T any] struct { pool sync.Pool; reset func(T) }].
    [init] is the value a call of the [New] function of the underlying
    [sync.Pool] creates, [reset] the reset function ([None] for [nil],
    and as a function from the state of a value to its state after the
    call), [items] the values the [sync.Pool] holds. *)
Record GenSyncPool : Type := mkPool {
  init : T;
  reset : option (T -> T);
  items : list T
}.

(** [func New[T any](init func() T, reset func(T)) *GenSyncPool[T]] *)
Definition New (init : T) (reset : option (T -> T)) : GenSyncPool :=
  mkPool init reset [].


(** [func (p *GenSyncPool[T]) Get() T], as a relation between the pool
    before, the value returned and the pool after: [sync.Pool.Get]
    removes and returns an arbitrary item it holds, or returns the
    result of [New] when it finds none; the pool may find none at any
    time. *)
Inductive Get (p : GenSyncPool) : T -> GenSyncPool -> Prop :=
| Get_item : forall before x after,
    items p = before ++ x :: after ->
    Get p x (mkPool (init p) (reset p) (before ++ after))
| Get_new :
    Get p (init p) p.



End GenSyncPool.

Arguments GenSyncPool T : clear implicits.

End Pool.

(* ================================================================= *)
(** ** Proofs: machine integers and the clamp step *)

Import Nav Index.

Section MachineIntegers.

Lemma wrap_range z : Int64.in_range (Int64.wrap z).
Proof.
  unfold Int64.in_range, Int64.wrap.
  pose proof (Z.mod_pos_bound (z - Int64.min_int) Int64.modulus eq_refl) as B.
  revert B. generalize ((z - Int64.min_int) mod Int64.modulus).
  unfold Int64.min_int, Int64.max_int, Int64.modulus. lia.
Qed.

Lemma wrap_spec z :
  exists k, Int64.wrap z = z + k * 18446744073709551616 /\
            -9223372036854775808 <= Int64.wrap z <= 9223372036854775807.
Proof.
  exists (- ((z - Int64.min_int) / Int64.modulus)).
  pose proof (wrap_range z) as R.
  pose proof (Z.div_mod (z - Int64.min_int) Int64.modulus ltac:(discriminate)) as D.
  unfold Int64.in_range, Int64.wrap in *.
  revert R D.
  generalize ((z - Int64.min_int) / Int64.modulus) as q.
  generalize ((z - Int64.min_int) mod Int64.modulus) as r.
  unfold Int64.min_int, Int64.max_int, Int64.modulus.
  change (2^64) with 18446744073709551616.
  change (2^63) with 9223372036854775808.
  intros; lia.
Qed.

Lemma wrap_small z : Int64.in_range z -> Int64.wrap z = z.
Proof.
  intros R. destruct (wrap_spec z) as [k [E B]].
  unfold Int64.in_range, Int64.min_int, Int64.max_int in R.
  change (2^63) with 9223372036854775808 in R. lia.
Qed.

End MachineIntegers.

Ltac range_consts :=
  unfold Int64.in_range, Int64.min_int, Int64.max_int in *;
  change (2^63) with 9223372036854775808 in *.

Ltac unwrap :=
  unfold Int64.add, Int64.sub, Int64.mul in *;
  repeat match goal with
  | |- context [Int64.wrap ?e] =>
      let k := fresh "k" in
      let Hk := fresh "Hk" in
      let Hr := fresh "Hr" in
      destruct (wrap_spec e) as [k [Hk Hr]];
      generalize dependent (Int64.wrap e); intros
  | H : context [Int64.wrap ?e] |- _ =>
      let k := fresh "k" in
      let Hk := fresh "Hk" in
      let Hr := fresh "Hr" in
      destruct (wrap_spec e) as [k [Hk Hr]];
      generalize dependent (Int64.wrap e); intros
  end.

Ltac no_if t :=
  lazymatch t with
  | context [if _ then _ else _] => fail
  | _ => idtac
  end.

Ltac split_ifs :=
  repeat match goal with
  | |- context [if ?a <? ?b then _ else _] =>
      no_if a; no_if b; destruct (Z.ltb_spec a b)
  | |- context [if ?a >? ?b then _ else _] =>
      no_if a; no_if b; rewrite (Z.gtb_ltb a b); destruct (Z.ltb_spec b a)
  | |- context [if ?a >=? ?b then _ else _] =>
      no_if a; no_if b; rewrite (Z.geb_leb a b); destruct (Z.leb_spec b a)
  end.

Lemma clamp_zero v :
  TotalLines v < 1 -> clamp v = mkViewport (TotalLines v) (Height v) 1 1.
Proof.
  intros H. unfold clamp. destruct (Z.ltb_spec (TotalLines v) 1); [reflexivity | lia].
Qed.

Ltac destruct_atomic_if :=
  match goal with
  | |- context [if ?b then _ else _] =>
      lazymatch b with
      | context [if _ then _ else _] => fail
      | _ => let E := fresh "E" in destruct b eqn:E
      end
  end.

Lemma clamp_unfold v :
  1 <= TotalLines v ->
  clamp v =
  mkViewport (TotalLines v) (Height v)
    (clamp_cursor (TotalLines v) (Cursor v))
    (bound_offset (TotalLines v) (Height v)
       (reveal_offset (Height v)
          (clamp_cursor (TotalLines v) (Cursor v)) (Offset v))).
Proof.
  intros H. destruct v as [T h c o]. cbn [TotalLines Height Cursor Offset] in *.
  unfold clamp, clamp_cursor, bound_offset, reveal_offset, set_Cursor, set_Offset.
  cbn [TotalLines Height Cursor Offset].
  destruct (Z.ltb_spec T 1); [lia|].
  repeat (destruct_atomic_if; cbn [TotalLines Height Cursor Offset] in * );
  first [reflexivity | congruence].
Qed.

Lemma clamp_cursor_bounds T c : 1 <= T -> 1 <= clamp_cursor T c <= T.
Proof. intros. unfold clamp_cursor. split_ifs; lia. Qed.

Lemma clamp_cursor_id T c : 1 <= c <= T -> clamp_cursor T c = c.
Proof. intros. unfold clamp_cursor. split_ifs; lia. Qed.

Lemma clamp_cursor_eq T c : 1 <= T -> clamp_cursor T c = Z.max 1 (Z.min c T).
Proof. intros. unfold clamp_cursor. split_ifs; lia. Qed.

Lemma reveal_offset_spec h c o :
  1 <= h <= Int64.max_int -> 1 <= c <= Int64.max_int -> Int64.in_range o ->
  Int64.in_range (reveal_offset h c o) /\
  reveal_offset h c o <= c <= reveal_offset h c o + h - 1.
Proof.
  intros Hh Hc Ho. unfold reveal_offset. range_consts.
  split_ifs; unwrap; lia.
Qed.

Lemma bound_offset_spec T h c o :
  1 <= T <= Int64.max_int -> 1 <= h <= Int64.max_int -> 1 <= c <= T ->
  Int64.in_range o -> o <= c <= o + h - 1 ->
  1 <= bound_offset T h o <= Z.max 1 (T - h + 1) /\
  bound_offset T h o <= c <= bound_offset T h o + h - 1.
Proof.
  intros HT Hh Hc Ho Hv. unfold bound_offset. range_consts.
  split_ifs; unwrap; lia.
Qed.

Lemma clamp_consistent T h c o :
  Int64.in_range T -> 1 <= h <= Int64.max_int ->
  Int64.in_range c -> Int64.in_range o ->
  consistent (clamp (mkViewport T h c o)).
Proof.
  intros HT Hh Hc Ho. unfold consistent.
  destruct (Z.lt_ge_cases T 1) as [Hz | Hp].
  - rewrite clamp_zero by exact Hz. cbn. repeat split; try tauto; try lia; apply HT.
  - rewrite clamp_unfold by exact Hp. cbn [TotalLines Height Cursor Offset].
    pose proof (clamp_cursor_bounds T c Hp) as Bc.
    assert (HT' : 1 <= T <= Int64.max_int) by (split; [lia | apply HT]).
    assert (Bc' : 1 <= clamp_cursor T c <= Int64.max_int) by lia.
    pose proof (reveal_offset_spec h _ o Hh Bc' Ho) as [Ro Rv].
    pose proof (bound_offset_spec T h _ _ HT' Hh Bc Ro Rv) as [Bo Bv].
    repeat split; try tauto; try lia; apply HT.
Qed.

(* ================================================================= *)
(** ** Proofs: reachable viewport states *)

Ltac solve_range :=
  first [ apply wrap_range
        | assumption
        | range_consts; cbn [TotalLines Height Cursor Offset] in *; lia ].

Lemma consistent_ranges v :
  consistent v -> Int64.in_range (Cursor v) /\ Int64.in_range (Offset v).
Proof.
  unfold consistent. intros (HT & Hh & Hp & Hz). range_consts.
  destruct (Z.lt_ge_cases (TotalLines v) 1) as [L | G].
  - destruct (Hz L) as [-> ->]. lia.
  - specialize (Hp G). lia.
Qed.

(** Every command either returns at once or ends in [clamp], having
    changed neither the total nor the height. *)
Lemma run_shape c v :
  run c v = v \/
  exists c' o',
    run c v = clamp (mkViewport (TotalLines v) (Height v) c' o') /\
    (consistent v -> well_typed c ->
     Int64.in_range c' /\ Int64.in_range o').
Proof.
  destruct v as [T h cu off].
  destruct c; unfold run, well_typed, arg_of, Down, Up, PageDown, PageUp,
    HalfPageDown, HalfPageUp, ScrollDown, ScrollUp, GotoTop, GotoBottom, Goto,
    GotoLineTop, GotoLineMiddle, GotoLineBottom, JumpToPercent, ClickAt,
    set_Cursor, set_Offset; cbn [TotalLines Height Cursor Offset];
  split_ifs; cbn [TotalLines Height Cursor Offset];
  try (left; reflexivity);
  (right; do 2 eexists; split; [reflexivity |];
   intros Hc Hw; pose proof (consistent_ranges _ Hc) as [Rc Ro];
   destruct Hc as (HT & Hh & _);
   cbn [TotalLines Height Cursor Offset] in *;
   split; solve_range).
Qed.

Lemma run_consistent c v :
  consistent v -> well_typed c -> consistent (run c v).
Proof.
  intros Hc Hw. destruct (run_shape c v) as [-> | (c' & o' & -> & R)].
  - exact Hc.
  - destruct (R Hc Hw) as [Rc Ro]. destruct Hc as (HT & Hh & _).
    apply clamp_consistent; assumption.
Qed.

Lemma reachable_consistent v : reachable v -> consistent v.
Proof.
  induction 1 as [T h HT Hh H1 | c v _ IH Hw | h v _ IH Hh | n v _ IH Hn].
  - apply clamp_consistent; range_consts; lia.
  - apply run_consistent; assumption.
  - pose proof (consistent_ranges _ IH) as [Rc Ro].
    destruct IH as (HT & Hh' & _).
    unfold SetHeight, set_Height. apply clamp_consistent; try assumption.
    split_ifs; range_consts; lia.
  - pose proof (consistent_ranges _ IH) as [Rc Ro].
    destruct IH as (HT & Hh' & _).
    unfold SetTotalLines, set_TotalLines. apply clamp_consistent; assumption.
Qed.

Lemma run_without_lines c v :
  TotalLines v < 1 -> Cursor v = 1 -> Offset v = 1 -> run c v = v.
Proof.
  intros HT Hc Ho. destruct (run_shape c v) as [E | (c' & o' & E & _)]; [exact E |].
  rewrite E, clamp_zero by exact HT.
  destruct v; cbn in *; subst; reflexivity.
Qed.

(** Claim C2.  Every viewport state reachable from [New totalLines height]
    with [height >= 1], through any sequence of navigation commands,
    [SetHeight] and [SetTotalLines] calls on [int] arguments, satisfies:
    when [totalLines >= 1], [1 <= cursor <= totalLines] and
    [offset <= cursor <= offset + height - 1]; when [totalLines = 0],
    cursor and offset are both 1 and every navigation command leaves the
    whole state unchanged.  The 64-bit wrap-around of the commands'
    arithmetic does not break this: [clamp] runs last and restores it. *)
Theorem viewport_invariant v :
  reachable v ->
  (1 <= TotalLines v ->
     1 <= Cursor v <= TotalLines v /\
     Offset v <= Cursor v <= Offset v + Height v - 1) /\
  (TotalLines v = 0 ->
     Cursor v = 1 /\ Offset v = 1 /\ forall c, run c v = v).
Proof.
  intros R. destruct (reachable_consistent v R) as (HT & Hh & Hp & Hz).
  split.
  - intros G. specialize (Hp G). lia.
  - intros E. destruct Hz as [Hc Ho]; [lia |].
    repeat split; try assumption.
    intros c. apply run_without_lines; [lia | assumption | assumption].
Qed.

Lemma viewport_invariant_witness :
  reachable (run (CDown 150) (New 100 10)) /\
  1 <= Cursor (run (CDown 150) (New 100 10)) <= 100.
Proof.
  assert (R : reachable (run (CDown 150) (New 100 10))).
  { apply reach_run.
    - apply reach_New; unfold Int64.in_range, Int64.min_int, Int64.max_int; lia.
    - unfold well_typed, arg_of, Int64.in_range, Int64.min_int, Int64.max_int; lia. }
  split; [exact R |].
  apply (proj1 (viewport_invariant _ R)). vm_compute. discriminate.
Defined.

(* ================================================================= *)
(** ** Proofs: page, percent and boundary motions *)

Lemma clamp_TotalLines v : TotalLines (clamp v) = TotalLines v.
Proof.
  destruct (Z.lt_ge_cases (TotalLines v) 1) as [L | G].
  - rewrite clamp_zero by exact L. reflexivity.
  - rewrite clamp_unfold by exact G. reflexivity.
Qed.

Lemma clamp_Height v : Height (clamp v) = Height v.
Proof.
  destruct (Z.lt_ge_cases (TotalLines v) 1) as [L | G].
  - rewrite clamp_zero by exact L. reflexivity.
  - rewrite clamp_unfold by exact G. reflexivity.
Qed.

Lemma clamp_Cursor_zero v : TotalLines v < 1 -> Cursor (clamp v) = 1.
Proof. intros L. rewrite clamp_zero by exact L. reflexivity. Qed.

Lemma clamp_Cursor_pos v :
  1 <= TotalLines v ->
  Cursor (clamp v) = clamp_cursor (TotalLines v) (Cursor v).
Proof. intros G. rewrite clamp_unfold by exact G. reflexivity. Qed.

Lemma reveal_offset_no_overflow h c o :
  1 <= h -> 1 <= c -> c + h <= Int64.max_int -> Int64.in_range o ->
  (c < o -> reveal_offset h c o = c) /\
  (o <= c < o + h -> reveal_offset h c o = o) /\
  (o + h <= c -> reveal_offset h c o = Z.max 1 (c - h + 1)).
Proof.
  intros Hh Hc Hs Ho. unfold reveal_offset. range_consts.
  split_ifs; unwrap; lia.
Qed.

Lemma bound_offset_eq T h o :
  1 <= T <= Int64.max_int -> 1 <= h <= Int64.max_int ->
  bound_offset T h o = Z.min (Z.max 1 o) (Z.max 1 (T - h + 1)).
Proof.
  intros HT Hh. unfold bound_offset. range_consts.
  split_ifs; unwrap; lia.
Qed.

(** The state at end-of-file: cursor on the last line, offset on the last
    valid screen. *)
Lemma PageDown_past_last_screen T h c o :
  1 <= T -> 1 <= h -> T + h <= Int64.max_int ->
  Int64.in_range o -> o + h <= Int64.max_int ->
  Z.max 1 (T - h + 1) < o + h ->
  PageDown (mkViewport T h c o) =
  mkViewport T h (Z.min (o + h) T) (Z.max 1 (T - h + 1)).
Proof.
  intros HT Hh Hs Ho Hoh Hp.
  unfold PageDown, set_Cursor, set_Offset. cbn [TotalLines Height Cursor Offset].
  assert (W : Int64.add o h = o + h).
  { apply wrap_small. range_consts. lia. }
  rewrite W, clamp_unfold by exact HT. cbn [TotalLines Height Cursor Offset].
  rewrite clamp_cursor_eq by exact HT.
  assert (C : Z.max 1 (Z.min (o + h) T) = Z.min (o + h) T) by lia.
  rewrite C.
  assert (R : reveal_offset h (Z.min (o + h) T) (o + h) = Z.min (o + h) T).
  { destruct (reveal_offset_no_overflow h (Z.min (o + h) T) (o + h))
      as (R1 & R2 & _); range_consts; lia. }
  rewrite R, bound_offset_eq by (range_consts; lia).
  f_equal. lia.
Qed.

(** Claim C6, amended.  For a viewport with [totalLines >= 1],
    [height >= 1] and no [int] overflow in [offset + height] and
    [totalLines + height]: a [PageDown] whose target offset
    [offset + height] lies past the last valid screen leaves the offset at
    [max 1 (totalLines - height + 1)] and the cursor on that screen; when
    the target lies past the last line the result is the end-of-file state
    (cursor on the last line, offset on the last valid screen); and from the
    end-of-file state any number of further [PageDown]s changes nothing. *)
Theorem PageDown_end_of_file v :
  1 <= TotalLines v -> 1 <= Height v ->
  TotalLines v + Height v <= Int64.max_int ->
  Int64.in_range (Offset v) -> Offset v + Height v <= Int64.max_int ->
  let last_screen := Z.max 1 (TotalLines v - Height v + 1) in
  let eof := mkViewport (TotalLines v) (Height v) (TotalLines v) last_screen in
  (last_screen < Offset v + Height v ->
     Offset (PageDown v) = last_screen /\
     last_screen <= Cursor (PageDown v) <= TotalLines v) /\
  (TotalLines v < Offset v + Height v -> PageDown v = eof) /\
  (forall n, repeat_cmd n PageDown eof = eof).
Proof.
  destruct v as [T h c o]. cbn [TotalLines Height Cursor Offset].
  intros HT Hh Hs Ho Hoh. cbv zeta. split; [| split].
  - intros Hp. rewrite PageDown_past_last_screen by assumption.
    cbn [TotalLines Height Cursor Offset]. lia.
  - intros Hp. rewrite PageDown_past_last_screen by (try assumption; lia).
    f_equal. lia.
  - assert (E : PageDown (mkViewport T h T (Z.max 1 (T - h + 1))) =
                mkViewport T h T (Z.max 1 (T - h + 1))).
    { rewrite PageDown_past_last_screen; try (range_consts; lia).
      f_equal. lia. }
    induction n as [| n IH]; [reflexivity |].
    cbn [repeat_cmd]. rewrite E. exact IH.
Qed.

Lemma PageDown_end_of_file_witness :
  let v := mkViewport 100 10 95 91 in
  1 <= TotalLines v /\ 1 <= Height v /\
  TotalLines v + Height v <= Int64.max_int /\
  Int64.in_range (Offset v) /\ Offset v + Height v <= Int64.max_int /\
  PageDown v = mkViewport 100 10 100 91 /\
  repeat_cmd 3 PageDown (mkViewport 100 10 100 91) = mkViewport 100 10 100 91.
Proof.
  cbv zeta.
  assert (H1 : 1 <= TotalLines (mkViewport 100 10 95 91)) by (cbn; lia).
  assert (H2 : 1 <= Height (mkViewport 100 10 95 91)) by (cbn; lia).
  assert (H3 : TotalLines (mkViewport 100 10 95 91) + Height (mkViewport 100 10 95 91)
               <= Int64.max_int) by (vm_compute; discriminate).
  assert (H4 : Int64.in_range (Offset (mkViewport 100 10 95 91)))
    by (split; vm_compute; discriminate).
  assert (H5 : Offset (mkViewport 100 10 95 91) + Height (mkViewport 100 10 95 91)
               <= Int64.max_int) by (vm_compute; discriminate).
  repeat (split; [assumption |]).
  pose proof (PageDown_end_of_file _ H1 H2 H3 H4 H5) as (_ & A & B).
  split.
  - apply A. cbn; lia.
  - apply (B 3%nat).
Defined.

Lemma PageDown_wraps_at_max_int :
  let v := GotoBottom (New Int64.max_int 10) in
  1 <= TotalLines v /\ 1 <= Height v /\
  Cursor v = TotalLines v /\
  Offset v = Z.max 1 (TotalLines v - Height v + 1) /\
  Cursor (PageDown v) = 1 /\ Offset (PageDown v) = 1 /\
  Offset (PageDown v) <> Z.max 1 (TotalLines v - Height v + 1) /\
  Cursor (PageDown v) <> Cursor v.
Proof. vm_compute. repeat split; discriminate. Qed.

Lemma JumpToPercent_cursor v p :
  1 <= TotalLines v ->
  TotalLines v * Z.max 1 (Z.min p 100) <= Int64.max_int ->
  Cursor (JumpToPercent p v) =
  Z.max 1 (TotalLines v * Z.max 1 (Z.min p 100) / 100).
Proof.
  destruct v as [T h c o]. cbn [TotalLines]. intros HT Hm.
  unfold JumpToPercent, Goto, set_Cursor. cbn [TotalLines Height Cursor Offset].
  rewrite clamp_Cursor_pos by exact HT. cbn [TotalLines Cursor].
  assert (P : (if (if p <? 1 then 1 else p) >? 100 then 100
               else if p <? 1 then 1 else p) = Z.max 1 (Z.min p 100)).
  { split_ifs; lia. }
  rewrite P. set (pc := Z.max 1 (Z.min p 100)) in *.
  assert (Hpc : 1 <= pc <= 100) by (unfold pc; lia).
  assert (X1 : 1 <= T * pc) by nia.
  assert (X2 : T * pc <= 100 * T) by nia.
  assert (W : Int64.mul T pc = T * pc).
  { apply wrap_small. range_consts. lia. }
  rewrite W. unfold Int64.quot.
  rewrite Z.quot_div_nonneg by lia.
  assert (Q1 : 0 <= T * pc / 100) by (apply Z.div_pos; lia).
  assert (Q2 : T * pc / 100 <= T) by (apply Z.div_le_upper_bound; lia).
  generalize dependent (T * pc / 100). intros q Q1 Q2.
  unfold clamp_cursor. split_ifs; lia.
Qed.

(** Claim C7, amended.  For a viewport with [totalLines >= 1] and any
    [int] percentage [p], with [pc] the clamp of [p] into [1, 100] and
    [totalLines * pc] inside the [int] range, [JumpToPercent p] puts the
    cursor on line [max 1 (totalLines * pc / 100)] (integer division), which
    lies in [1, totalLines]; [JumpToPercent 0] acts as [JumpToPercent 1]
    and lands on [max 1 (totalLines / 100)], never on line 0; and
    [JumpToPercent 100] (or more) lands on the last line. *)
Theorem JumpToPercent_line v p :
  1 <= TotalLines v ->
  TotalLines v * Z.max 1 (Z.min p 100) <= Int64.max_int ->
  Cursor (JumpToPercent p v) =
    Z.max 1 (TotalLines v * Z.max 1 (Z.min p 100) / 100) /\
  1 <= Cursor (JumpToPercent p v) <= TotalLines v /\
  (p <= 1 -> Cursor (JumpToPercent p v) = Z.max 1 (TotalLines v / 100)) /\
  (100 <= p -> Cursor (JumpToPercent p v) = TotalLines v).
Proof.
  intros HT Hm. pose proof (JumpToPercent_cursor v p HT Hm) as E.
  rewrite E. split; [reflexivity |].
  set (pc := Z.max 1 (Z.min p 100)) in *.
  assert (Hpc : 1 <= pc <= 100) by (unfold pc; lia).
  assert (Q2 : TotalLines v * pc / 100 <= TotalLines v)
    by (apply Z.div_le_upper_bound; nia).
  split; [lia |]. split.
  - intros Hp. replace pc with 1 by (unfold pc; lia).
    rewrite Z.mul_1_r. reflexivity.
  - intros Hp. replace pc with 100 by (unfold pc; lia).
    rewrite Z.div_mul by discriminate. lia.
Qed.

Lemma JumpToPercent_line_witness :
  1 <= TotalLines (New 100 10) /\
  TotalLines (New 100 10) * Z.max 1 (Z.min 200 100) <= Int64.max_int /\
  Cursor (JumpToPercent 200 (New 100 10)) = 100 /\
  Cursor (JumpToPercent 0 (New 100 10)) = 1.
Proof.
  assert (H1 : 1 <= TotalLines (New 100 10)) by (vm_compute; discriminate).
  assert (H2 : TotalLines (New 100 10) * Z.max 1 (Z.min 200 100) <= Int64.max_int)
    by (vm_compute; discriminate).
  assert (H3 : TotalLines (New 100 10) * Z.max 1 (Z.min 0 100) <= Int64.max_int)
    by (vm_compute; discriminate).
  repeat (split; [assumption |]). split.
  - apply (JumpToPercent_line (New 100 10) 200 H1 H2). lia.
  - apply (proj1 (JumpToPercent_line (New 100 10) 0 H1 H3)).
Defined.

Lemma JumpToPercent_zero_not_first_line :
  Cursor (JumpToPercent 0 (New 1000 10)) = 10 /\
  Cursor (JumpToPercent 0 (New 1000 10)) <> 1 /\
  Cursor (JumpToPercent 100 (New (2 ^ 62) 10)) = 1 /\
  Cursor (JumpToPercent 100 (New (2 ^ 62) 10)) <> 2 ^ 62.
Proof. vm_compute. repeat split; discriminate. Qed.

(** Claim C8, amended.  For a viewport with [totalLines >= 1] and
    percentages [1 <= p1 < p2 <= 100] such that [totalLines * p2] does not
    overflow the [int] range, the line reached by [JumpToPercent p1] is at
    most the line reached by [JumpToPercent p2] from the same state. *)
Theorem JumpToPercent_monotone v p1 p2 :
  1 <= TotalLines v -> 1 <= p1 -> p1 < p2 -> p2 <= 100 ->
  TotalLines v * p2 <= Int64.max_int ->
  Cursor (JumpToPercent p1 v) <= Cursor (JumpToPercent p2 v).
Proof.
  intros HT H1 H12 H2 Hm.
  assert (E1 : Z.max 1 (Z.min p1 100) = p1) by lia.
  assert (E2 : Z.max 1 (Z.min p2 100) = p2) by lia.
  rewrite (JumpToPercent_cursor v p1), (JumpToPercent_cursor v p2);
    rewrite ?E1, ?E2; try assumption; [| nia].
  apply Z.max_le_compat_l. apply Z.div_le_mono; nia.
Qed.

Lemma JumpToPercent_monotone_witness :
  1 <= TotalLines (New 100 10) /\ 1 <= 25 /\ 25 < 75 /\ 75 <= 100 /\
  TotalLines (New 100 10) * 75 <= Int64.max_int /\
  Cursor (JumpToPercent 25 (New 100 10)) <= Cursor (JumpToPercent 75 (New 100 10)).
Proof.
  assert (H1 : 1 <= TotalLines (New 100 10)) by (vm_compute; discriminate).
  assert (H2 : TotalLines (New 100 10) * 75 <= Int64.max_int)
    by (vm_compute; discriminate).
  split; [exact H1 |]. do 3 (split; [lia |]). split; [exact H2 |].
  apply (JumpToPercent_monotone (New 100 10) 25 75 H1); [lia | lia | lia | exact H2].
Defined.

Lemma JumpToPercent_not_monotone_on_overflow :
  let v := New (2 ^ 62) 10 in
  1 <= TotalLines v /\
  Cursor (JumpToPercent 1 v) = 46116860184273879 /\
  Cursor (JumpToPercent 4 v) = 1 /\
  ~ Cursor (JumpToPercent 1 v) <= Cursor (JumpToPercent 4 v).
Proof. vm_compute. repeat split; discriminate || (intros H; apply H; reflexivity). Qed.

Lemma Goto_Cursor l v :
  Cursor (Goto l v) =
  if TotalLines v <? 1 then 1 else clamp_cursor (TotalLines v) l.
Proof.
  unfold Goto. destruct (Z.ltb_spec (TotalLines v) 1) as [L | G].
  - apply clamp_Cursor_zero. exact L.
  - rewrite clamp_Cursor_pos by exact G. reflexivity.
Qed.

Lemma Goto_TotalLines l v : TotalLines (Goto l v) = TotalLines v.
Proof. unfold Goto. rewrite clamp_TotalLines. reflexivity. Qed.

Lemma Down_as_Goto n v :
  1 <= n -> Down n v = Goto (Int64.add (Cursor v) n) v.
Proof.
  intros G. unfold Down, Goto.
  destruct (Z.ltb_spec n 1); [lia | reflexivity].
Qed.

Lemma Up_as_Goto n v :
  1 <= n -> Up n v = Goto (Int64.sub (Cursor v) n) v.
Proof.
  intros G. unfold Up, Goto.
  destruct (Z.ltb_spec n 1); [lia | reflexivity].
Qed.

(** Claim C9, amended.  For every viewport state and every [int]
    [n >= 0]: [GotoTop] followed by [Up n] leaves the cursor where [GotoTop]
    put it; and, provided [totalLines + n] does not overflow the [int]
    range, [GotoBottom] followed by [Down n] leaves the cursor where
    [GotoBottom] put it. *)
Theorem boundary_moves_keep_cursor v n :
  0 <= n <= Int64.max_int ->
  (TotalLines v + n <= Int64.max_int ->
     Cursor (Down n (GotoBottom v)) = Cursor (GotoBottom v)) /\
  Cursor (Up n (GotoTop v)) = Cursor (GotoTop v).
Proof.
  intros Hn. unfold GotoBottom, GotoTop.
  destruct (Z.lt_ge_cases n 1) as [L | G].
  { unfold Down, Up. destruct (Z.ltb_spec n 1); [split; reflexivity | lia]. }
  rewrite Down_as_Goto, Up_as_Goto by exact G.
  rewrite !Goto_Cursor, !Goto_TotalLines.
  destruct (Z.ltb_spec (TotalLines v) 1) as [Z0 | P]; [split; reflexivity |].
  rewrite (clamp_cursor_id _ (TotalLines v)) by lia.
  rewrite (clamp_cursor_id _ 1) by lia.
  split.
  - intros Hs. rewrite clamp_cursor_eq by exact P.
    assert (W : Int64.add (TotalLines v) n = TotalLines v + n).
    { apply wrap_small. range_consts. lia. }
    rewrite W. lia.
  - rewrite clamp_cursor_eq by exact P.
    assert (W : Int64.sub 1 n = 1 - n).
    { apply wrap_small. range_consts. lia. }
    rewrite W. lia.
Qed.

Lemma boundary_moves_keep_cursor_witness :
  0 <= 150 <= Int64.max_int /\
  TotalLines (New 100 10) + 150 <= Int64.max_int /\
  Cursor (Down 150 (GotoBottom (New 100 10))) = 100 /\
  Cursor (Up 150 (GotoTop (New 100 10))) = 1.
Proof.
  assert (H1 : 0 <= 150 <= Int64.max_int) by (split; vm_compute; discriminate).
  assert (H2 : TotalLines (New 100 10) + 150 <= Int64.max_int)
    by (vm_compute; discriminate).
  split; [exact H1 |]. split; [exact H2 |].
  destruct (boundary_moves_keep_cursor (New 100 10) 150 H1) as [A B].
  split; [exact (A H2) | exact B].
Defined.

Lemma Down_wraps_past_max_int :
  let v := GotoBottom (New 2 10) in
  0 <= Int64.max_int /\
  Cursor v = 2 /\ Cursor (Down Int64.max_int v) = 1 /\
  Cursor (Down Int64.max_int v) <> Cursor v.
Proof. vm_compute. repeat split; discriminate. Qed.

(** Claim C10.  For every viewport state, consistent or not, and every
    [n < 1], [ScrollDown n] and [ScrollUp n] return the state exactly as it
    was (cursor, offset, height and total): they return before [clamp]. *)
Theorem Scroll_nonpositive_is_identity v n :
  n < 1 -> ScrollDown n v = v /\ ScrollUp n v = v.
Proof.
  intros Hn. unfold ScrollDown, ScrollUp.
  destruct (Z.ltb_spec n 1); [split; reflexivity | lia].
Qed.

Lemma Scroll_nonpositive_is_identity_witness :
  0 < 1 /\
  ScrollDown 0 (mkViewport 100 10 500 (-7)) = mkViewport 100 10 500 (-7) /\
  ScrollUp 0 (mkViewport 100 10 500 (-7)) = mkViewport 100 10 500 (-7).
Proof.
  split; [lia |].
  apply (Scroll_nonpositive_is_identity (mkViewport 100 10 500 (-7)) 0). lia.
Defined.

(* ================================================================= *)
(** ** Proofs: the offset table *)

Section IndexFacts.

Lemma u64_small z : 0 <= z <= Int64.max_int -> U64.of_Z z = z.
Proof.
  intros H. unfold U64.of_Z. apply Z.mod_small.
  unfold Int64.modulus. range_consts. lia.
Qed.

Lemma len_nonneg {A} (s : list A) : 0 <= len s.
Proof. unfold len. lia. Qed.

Lemma len_cons {A} (a : A) (s : list A) : len (a :: s) = len s + 1.
Proof. unfold len. cbn [List.length]. lia. Qed.

Lemma len_app {A} (s t : list A) : len (s ++ t) = len s + len t.
Proof. unfold len. rewrite length_app. lia. Qed.

(** The loop only appends to the table it is given. *)
Lemma scan_acc n rest : forall i offs,
  scan n i rest offs = offs ++ scan n i rest [].
Proof.
  induction rest as [| b rest IH]; intros i offs; cbn [scan].
  - rewrite app_nil_r. reflexivity.
  - destruct (Byte.eqb b newline && (Int64.add i 1 <? n)).
    + rewrite IH, (IH _ ([] ++ _)), app_assoc. reflexivity.
    + apply IH.
Qed.

Lemma scan_cons n i b rest :
  0 <= i -> i + 1 <= Int64.max_int ->
  scan n i (b :: rest) [] =
  (if Byte.eqb b newline && (i + 1 <? n) then [i + 1] else [])
    ++ scan n (i + 1) rest [].
Proof.
  intros H0 H1. cbn [scan].
  assert (W : Int64.add i 1 = i + 1) by (apply wrap_small; range_consts; lia).
  rewrite W, u64_small by lia. rewrite scan_acc.
  destruct (Byte.eqb b newline && (i + 1 <? n)); reflexivity.
Qed.

Lemma scan_bounds n rest : forall i,
  0 <= i -> i + len rest <= n -> n <= Int64.max_int ->
  Forall (fun o => i < o < n) (scan n i rest []).
Proof.
  induction rest as [| b rest IH]; intros i H0 H1 H2.
  - constructor.
  - rewrite len_cons in H1. pose proof (len_nonneg rest).
    rewrite scan_cons by lia. apply Forall_app. split.
    + destruct (Byte.eqb b newline); cbn [andb]; [| constructor].
      destruct (Z.ltb_spec (i + 1) n); constructor; [lia | constructor].
    + eapply Forall_impl; [| apply IH; lia]. cbn beta. intros o Ho. lia.
Qed.

Lemma scan_sorted n rest : forall i,
  0 <= i -> i + len rest <= n -> n <= Int64.max_int ->
  StronglySorted Z.lt (scan n i rest []).
Proof.
  induction rest as [| b rest IH]; intros i H0 H1 H2.
  - constructor.
  - rewrite len_cons in H1. pose proof (len_nonneg rest).
    rewrite scan_cons by lia.
    destruct (Byte.eqb b newline && (i + 1 <? n)); cbn [app].
    + constructor; [apply IH; lia |].
      eapply Forall_impl; [| apply (scan_bounds n rest (i + 1)); lia].
      cbn beta. intros o Ho. lia.
    + apply IH; lia.
Qed.

Lemma scan_count n rest : forall i,
  0 <= i -> i + len rest = n -> n <= Int64.max_int ->
  len (scan n i rest []) = count_newlines (removelast rest).
Proof.
  induction rest as [| b rest IH]; intros i H0 H1 H2.
  - reflexivity.
  - rewrite len_cons in H1. pose proof (len_nonneg rest) as Hr.
    rewrite scan_cons, len_app, IH by lia.
    destruct rest as [| b' rest'].
    + cbn [removelast]. unfold len in H1. cbn [List.length] in H1.
      destruct (Z.ltb_spec (i + 1) n); [lia |].
      rewrite andb_false_r. reflexivity.
    + rewrite len_cons in H1. pose proof (len_nonneg rest').
      destruct (Z.ltb_spec (i + 1) n); [| lia]. rewrite andb_true_r.
      change (removelast (b :: b' :: rest')) with (b :: removelast (b' :: rest')).
      unfold count_newlines. cbn [count_occ].
      destruct (Byte.byte_eq_dec b newline) as [-> | Hne].
      * change (Byte.eqb newline newline) with true. cbv iota.
        unfold len. cbn [List.length]. lia.
      * destruct (Byte.eqb b newline) eqn:E.
        -- apply Byte.byte_dec_bl in E. contradiction.
        -- unfold len. cbn [List.length]. lia.
Qed.

Lemma Forall_last {A} (P : A -> Prop) (l : list A) d :
  Forall P l -> P d -> P (last l d).
Proof.
  induction 1 as [| a l Ha Hl IH]; intros Hd; [exact Hd |].
  destruct l; [exact Ha | apply IH; exact Hd].
Qed.

(** What [buildOffsets] returns on non-empty data, started with an empty
    table as [Open] and [OpenReader] do. *)
Lemma buildOffsets_built bytes r nm :
  bytes <> [] -> len bytes <= Int64.max_int ->
  buildOffsets (mkIndex bytes [] r nm) =
  (mkIndex bytes (0 :: scan (len bytes) 0 bytes []) r nm, None).
Proof.
  intros Hne Hmax. unfold buildOffsets. cbn [data offsets app].
  destruct (Z.eqb_spec (len bytes) 0) as [E | _].
  { destruct bytes; [contradiction | rewrite len_cons in E].
    pose proof (len_nonneg bytes). lia. }
  rewrite scan_acc. cbn [app].
  set (offs := 0 :: scan (len bytes) 0 bytes []).
  assert (B : Forall (fun o => 0 <= o < len bytes) offs).
  { constructor.
    - destruct bytes; [contradiction | rewrite len_cons].
      pose proof (len_nonneg bytes). lia.
    - eapply Forall_impl; [| apply (scan_bounds (len bytes) bytes 0); lia].
      cbn beta. intros o Ho. lia. }
  assert (L : 0 <= last offs 0 < len bytes).
  { apply (Forall_last (fun o => 0 <= o < len bytes)); [exact B |].
    destruct bytes; [contradiction | rewrite len_cons].
    pose proof (len_nonneg bytes). lia. }
  rewrite wrap_small by (range_consts; lia).
  rewrite (Z.geb_leb (last offs 0)).
  destruct (Z.leb_spec (len bytes) (last offs 0)); [lia |].
  rewrite andb_false_r. reflexivity.
Qed.

Lemma count_newlines_bound s : 0 <= count_newlines s <= len s.
Proof.
  unfold count_newlines, len.
  pose proof (count_occ_bound Byte.byte_eq_dec newline s). lia.
Qed.

Lemma len_removelast {A} (s : list A) :
  s <> [] -> len (removelast s) = len s - 1.
Proof.
  intros H. destruct (exists_last H) as (s' & a & ->).
  rewrite removelast_last, len_app. unfold len. cbn. lia.
Qed.

Lemma buildOffsets_well_formed bytes r nm idx :
  len bytes <= Int64.max_int ->
  buildOffsets (mkIndex bytes [] r nm) = (idx, None) ->
  bytes <> [] /\
  idx = mkIndex bytes (0 :: scan (len bytes) 0 bytes []) r nm /\
  well_formed idx /\
  LineCount idx = 1 + count_newlines (removelast bytes).
Proof.
  intros Hmax Hb.
  assert (Hne : bytes <> []).
  { intros ->. unfold buildOffsets in Hb. cbn in Hb. discriminate. }
  rewrite buildOffsets_built in Hb by assumption.
  injection Hb as <-. split; [exact Hne |]. split; [reflexivity |].
  assert (C : len (scan (len bytes) 0 bytes []) = count_newlines (removelast bytes))
    by (apply scan_count; lia).
  split.
  - unfold well_formed. cbn [offsets data].
    assert (Hpos : 0 < len bytes).
    { destruct bytes; [contradiction | rewrite len_cons].
      pose proof (len_nonneg bytes). lia. }
    repeat split.
    + constructor.
      * apply scan_sorted; lia.
      * eapply Forall_impl; [| apply (scan_bounds (len bytes) bytes 0); lia].
        cbn beta. intros o Ho. lia.
    + constructor; [lia |].
      eapply Forall_impl; [| apply (scan_bounds (len bytes) bytes 0); lia].
      cbn beta. intros o Ho. lia.
    + rewrite len_cons, C.
      pose proof (count_newlines_bound (removelast bytes)).
      rewrite len_removelast in H by exact Hne. lia.
    + exact Hmax.
  - unfold LineCount. cbn [offsets]. rewrite len_cons, C. lia.
Qed.

End IndexFacts.

(* ================================================================= *)
(** ** Proofs: line lookup *)

Section Lookup.

Lemma index_in_range {A} (s : list A) i :
  0 <= i < len s ->
  exists a, index s i = Ok a /\ nth_error s (Z.to_nat i) = Some a.
Proof.
  intros H. unfold index.
  destruct (Z.ltb_spec i 0); [lia |].
  rewrite (Z.geb_leb i). destruct (Z.leb_spec (len s) i); [lia |].
  cbn [orb].
  destruct (nth_error s (Z.to_nat i)) as [a |] eqn:E.
  - exists a. split; reflexivity.
  - apply nth_error_None in E. unfold len in H. lia.
Qed.

Lemma slice_in_range {A} (s : list A) lo hi :
  0 <= lo <= hi -> hi <= len s ->
  slice s lo hi = Ok (firstn (Z.to_nat (hi - lo)) (skipn (Z.to_nat lo) s)).
Proof.
  intros H1 H2. unfold slice.
  destruct (Z.ltb_spec lo 0); [lia |].
  destruct (Z.ltb_spec hi lo); [lia |].
  rewrite (Z.gtb_ltb hi). destruct (Z.ltb_spec (len s) hi); [lia |].
  reflexivity.
Qed.

Lemma sorted_nth_lt (l : list Z) : forall i j a b,
  StronglySorted Z.lt l -> (i < j)%nat ->
  nth_error l i = Some a -> nth_error l j = Some b -> a < b.
Proof.
  induction l as [| x l IH]; intros i j a b Hs Hij Ha Hb.
  - destruct i; discriminate.
  - apply StronglySorted_inv in Hs as [Hs Hx].
    destruct j as [| j]; [lia |]. cbn [nth_error] in Hb.
    destruct i as [| i]; cbn [nth_error] in Ha.
    + injection Ha as <-. rewrite Forall_forall in Hx.
      apply Hx. eapply nth_error_In. exact Hb.
    + apply (IH i j a b Hs); [lia | exact Ha | exact Hb].
Qed.

(** The carriage-return trim and the final slice never go out of
    bounds. *)
Lemma trim_and_slice_ok (bytes : list byte) start end1 :
  0 <= start <= end1 -> end1 <= len bytes -> len bytes <= Int64.max_int ->
  exists line,
    (end_ <-
       (if end1 >? start then
          b <- index bytes (U64.sub end1 1) ;;
          if Byte.eqb b carriage_return then Ok (U64.sub end1 1)
          else Ok end1
        else Ok end1) ;;
     slice bytes start end_) = Ok line.
Proof.
  intros H1 H2 H3. rewrite (Z.gtb_ltb end1).
  destruct (Z.ltb_spec start end1) as [L | G].
  - assert (U : U64.sub end1 1 = end1 - 1).
    { unfold U64.sub. apply u64_small. lia. }
    rewrite U.
    destruct (index_in_range bytes (end1 - 1)) as (b & Hb & _); [lia |].
    rewrite Hb. cbn [bind].
    destruct (Byte.eqb b carriage_return); cbn [bind];
      rewrite slice_in_range by lia; eexists; reflexivity.
  - cbn [bind]. rewrite slice_in_range by lia. eexists; reflexivity.
Qed.

Lemma GetLine_in_range idx n :
  well_formed idx -> 1 <= n <= LineCount idx ->
  exists line, GetLine idx n = Ok line.
Proof.
  intros (H0 & Hs & Hb & Hl & Hmax) Hn. unfold LineCount in Hn.
  unfold GetLine.
  destruct (Z.ltb_spec n 1); [lia |].
  rewrite (Z.gtb_ltb n). destruct (Z.ltb_spec (len (offsets idx)) n); [lia |].
  cbn [orb].
  assert (S1 : Int64.sub n 1 = n - 1).
  { apply wrap_small. range_consts. lia. }
  rewrite S1.
  destruct (index_in_range (offsets idx) (n - 1)) as (start & Hi & Hnth); [lia |].
  rewrite Hi. cbn [bind].
  assert (Bs : 0 <= start < len (data idx)).
  { rewrite Forall_forall in Hb. apply Hb. eapply nth_error_In. exact Hnth. }
  destruct (Z.ltb_spec n (len (offsets idx))) as [Lt | Ge].
  - destruct (index_in_range (offsets idx) n) as (e & He & Hnth'); [lia |].
    rewrite He. cbn [bind].
    assert (Be : 0 <= e < len (data idx)).
    { rewrite Forall_forall in Hb. apply Hb. eapply nth_error_In. exact Hnth'. }
    assert (Lse : start < e).
    { eapply (sorted_nth_lt (offsets idx)); [exact Hs | | exact Hnth | exact Hnth'].
      lia. }
    rewrite (Z.gtb_ltb e). destruct (Z.ltb_spec 0 e); [| lia].
    assert (U : U64.sub e 1 = e - 1).
    { unfold U64.sub. apply u64_small. lia. }
    rewrite U.
    destruct (index_in_range (data idx) (e - 1)) as (b & Hbyte & _); [lia |].
    rewrite Hbyte. cbn [bind].
    destruct (Byte.eqb b newline); cbn [bind];
      apply trim_and_slice_ok; lia.
  - cbn [bind]. rewrite u64_small by (pose proof (len_nonneg (data idx)); lia).
    apply trim_and_slice_ok; lia.
Qed.

Lemma GetLine_out_of_range idx n :
  n < 1 \/ n > len (offsets idx) -> GetLine idx n = Err ErrInvalidLine.
Proof.
  intros H. unfold GetLine.
  destruct (Z.ltb_spec n 1); [reflexivity |].
  rewrite (Z.gtb_ltb n). destruct (Z.ltb_spec (len (offsets idx)) n); [reflexivity | lia].
Qed.

End Lookup.

(** Claim C5.  For every index built by [buildOffsets] (as [Open] and
    [OpenReader] call it, on data whose length is an [int]) and every
    integer [n]: [GetLine n], and likewise [GetLineString n], fails with
    [ErrInvalidLine] exactly when [n < 1] or [n > LineCount()]; for every
    [n] in [1, LineCount()] both succeed (no error and no panic). *)
Theorem GetLine_invalid_line_iff bytes r nm idx n :
  len bytes <= Int64.max_int ->
  buildOffsets (mkIndex bytes [] r nm) = (idx, None) ->
  (GetLine idx n = Err ErrInvalidLine <-> n < 1 \/ n > LineCount idx) /\
  (GetLineString idx n = Err ErrInvalidLine <-> n < 1 \/ n > LineCount idx) /\
  (1 <= n <= LineCount idx ->
     (exists line, GetLine idx n = Ok line) /\
     (exists s, GetLineString idx n = Ok s)).
Proof.
  intros Hmax Hb.
  destruct (buildOffsets_well_formed _ _ _ _ Hmax Hb) as (_ & _ & Hwf & _).
  assert (Hin : 1 <= n <= LineCount idx ->
               exists line, GetLine idx n = Ok line).
  { apply GetLine_in_range. exact Hwf. }
  assert (Hout : n < 1 \/ n > LineCount idx -> GetLine idx n = Err ErrInvalidLine).
  { apply GetLine_out_of_range. }
  assert (G : GetLine idx n = Err ErrInvalidLine <-> n < 1 \/ n > LineCount idx).
  { split; [| exact Hout]. intros E.
    destruct (Z.lt_ge_cases n 1) as [? | G1]; [left; assumption |].
    destruct (Z.lt_ge_cases (LineCount idx) n) as [? | G2]; [right; lia |].
    destruct Hin as [line Hl]; [lia |]. rewrite Hl in E. discriminate. }
  split; [exact G |]. split.
  - rewrite <- G. unfold GetLineString.
    destruct (GetLine idx n); split; intros E; congruence.
  - intros Hn. destruct (Hin Hn) as [line Hl]. split.
    + exists line. exact Hl.
    + exists (string_of_list_byte line). unfold GetLineString.
      rewrite Hl. reflexivity.
Qed.

Lemma GetLine_invalid_line_iff_witness :
  let idx := fst (buildOffsets (mkIndex three_lines [] false "test"%string)) in
  len three_lines <= Int64.max_int /\
  buildOffsets (mkIndex three_lines [] false "test"%string) = (idx, None) /\
  GetLine idx 4 = Err ErrInvalidLine /\
  (exists line, GetLine idx 2 = Ok line).
Proof.
  cbv zeta.
  assert (H1 : len three_lines <= Int64.max_int) by (vm_compute; discriminate).
  assert (H2 : buildOffsets (mkIndex three_lines [] false "test"%string) =
               (fst (buildOffsets (mkIndex three_lines [] false "test"%string)), None))
    by (vm_compute; reflexivity).
  split; [exact H1 |]. split; [exact H2 |]. split.
  - apply (proj1 (GetLine_invalid_line_iff _ _ _ _ 4 H1 H2)).
    right. vm_compute. reflexivity.
  - apply (proj2 (proj2 (GetLine_invalid_line_iff _ _ _ _ 2 H1 H2))).
    vm_compute. split; discriminate.
Defined.

(** Claim C3.  For every input for which an index is built (non-empty
    data whose length is an [int]): [LineCount()] is the length of the
    offset table and is at least 1; [offsets[0] = 0]; the offsets increase
    strictly; every offset is a position inside the data, so a trailing
    newline opens no extra empty line: the line count is one more than the
    number of newlines among all bytes but the last.  The file
    "line1\nline2\n" has 2 lines and "\n\n\n" has 3. *)
Theorem offsets_invariant :
  (forall bytes r nm idx,
     len bytes <= Int64.max_int ->
     buildOffsets (mkIndex bytes [] r nm) = (idx, None) ->
     LineCount idx = len (offsets idx) /\
     1 <= LineCount idx /\
     nth_error (offsets idx) 0 = Some 0 /\
     StronglySorted Z.lt (offsets idx) /\
     Forall (fun o => o < len bytes) (offsets idx) /\
     LineCount idx = 1 + count_newlines (removelast bytes)) /\
  option_map LineCount (index_of two_lines) = Some 2 /\
  option_map LineCount (index_of blank_lines) = Some 3.
Proof.
  split; [| split; reflexivity].
  intros bytes r nm idx Hmax Hb.
  destruct (buildOffsets_well_formed _ _ _ _ Hmax Hb)
    as (Hne & -> & (H0 & Hs & Hbd & Hl) & Hc).
  cbn [offsets data] in *.
  split; [reflexivity |]. split.
  { rewrite Hc. pose proof (count_newlines_bound (removelast bytes)). lia. }
  split; [exact H0 |]. split; [exact Hs |]. split; [| exact Hc].
  eapply Forall_impl; [| exact Hbd]. cbn beta. intros o Ho. lia.
Qed.

Lemma offsets_invariant_witness :
  let idx := fst (buildOffsets (mkIndex two_lines [] false "test"%string)) in
  len two_lines <= Int64.max_int /\
  buildOffsets (mkIndex two_lines [] false "test"%string) = (idx, None) /\
  LineCount idx = 1 + count_newlines (removelast two_lines) /\
  nth_error (offsets idx) 0 = Some 0.
Proof.
  cbv zeta.
  assert (H1 : len two_lines <= Int64.max_int) by (vm_compute; discriminate).
  assert (H2 : buildOffsets (mkIndex two_lines [] false "test"%string) =
               (fst (buildOffsets (mkIndex two_lines [] false "test"%string)), None))
    by (vm_compute; reflexivity).
  split; [exact H1 |]. split; [exact H2 |].
  destruct (proj1 offsets_invariant _ _ _ _ H1 H2) as (_ & _ & A & _ & _ & B).
  split; [exact B | exact A].
Defined.

(** Claim C4.  [Open] and [OpenReader] return [ErrEmptyFile] if and only
    if the bytes were obtained and are of length zero; in that case no index
    is returned. *)
Theorem empty_input_error :
  (forall fs path,
     snd (Open fs path) = Some ErrEmptyFile <->
     exists bytes, fs path = MmapData bytes /\ len bytes = 0) /\
  (forall r nm,
     snd (OpenReader r nm) = Some ErrEmptyFile <->
     exists bytes, r = ReadData bytes /\ len bytes = 0) /\
  (forall fs path,
     snd (Open fs path) = Some ErrEmptyFile -> fst (Open fs path) = None) /\
  (forall r nm,
     snd (OpenReader r nm) = Some ErrEmptyFile ->
     fst (OpenReader r nm) = None).
Proof.
  assert (B : forall bytes r nm,
    (len bytes = 0 ->
       buildOffsets (mkIndex bytes [] r nm) =
       (mkIndex bytes [] r nm, Some ErrEmptyFile)) /\
    (len bytes <> 0 -> snd (buildOffsets (mkIndex bytes [] r nm)) = None)).
  { intros bytes r nm. unfold buildOffsets. cbn [data].
    destruct (Z.eqb_spec (len bytes) 0); split; intros; try lia; reflexivity. }
  assert (O : forall fs path,
    snd (Open fs path) = Some ErrEmptyFile <->
    exists bytes, fs path = MmapData bytes /\ len bytes = 0).
  { intros fs path. unfold Open. destruct (fs path) as [e | e | bytes].
    - cbn. split; [discriminate | intros (b & E & _); discriminate].
    - cbn. split; [discriminate | intros (b & E & _); discriminate].
    - destruct (B bytes true path) as [B0 B1].
      destruct (Z.eq_dec (len bytes) 0) as [E | N].
      + rewrite (B0 E). cbn. split; [| reflexivity].
        intros _. exists bytes. split; [reflexivity | exact E].
      + specialize (B1 N).
        destruct (buildOffsets (mkIndex bytes [] true path)) as [i [err |]];
          cbn in B1; [discriminate |]. cbn.
        split; [discriminate |]. intros (b & E & L). injection E as <-. lia. }
  assert (R : forall r nm,
    snd (OpenReader r nm) = Some ErrEmptyFile <->
    exists bytes, r = ReadData bytes /\ len bytes = 0).
  { intros r nm. unfold OpenReader. destruct r as [e | bytes].
    - cbn. split; [discriminate | intros (b & E & _); discriminate].
    - destruct (B bytes false nm) as [B0 B1].
      destruct (Z.eq_dec (len bytes) 0) as [E | N].
      + rewrite (B0 E). cbn. split; [| reflexivity].
        intros _. exists bytes. split; [reflexivity | exact E].
      + specialize (B1 N).
        destruct (buildOffsets (mkIndex bytes [] false nm)) as [i [err |]];
          cbn in B1; [discriminate |]. cbn.
        split; [discriminate |]. intros (b & E & L). injection E as <-. lia. }
  split; [exact O |]. split; [exact R |]. split.
  - intros fs path H. apply O in H as (bytes & E & L).
    unfold Open. rewrite E. rewrite (proj1 (B bytes true path) L). reflexivity.
  - intros r nm H. apply R in H as (bytes & E & L). subst r.
    unfold OpenReader. rewrite (proj1 (B bytes false nm) L). reflexivity.
Qed.

Lemma empty_input_error_witness :
  OpenReader (ReadData []) "stdin"%string = (None, Some ErrEmptyFile) /\
  Open (fun _ => MmapData []) "empty.log"%string = (None, Some ErrEmptyFile) /\
  fst (OpenReader (ReadData []) "stdin"%string) = None.
Proof.
  split; [reflexivity |]. split; [reflexivity |].
  apply (proj2 (proj2 (proj2 empty_input_error)) (ReadData []) "stdin"%string).
  reflexivity.
Defined.

(** On the last line [GetLine] returns everything from the line's start to
    the end of the data, minus at most one carriage return: when the data
    ends with a newline, so does the line returned. *)
Lemma GetLine_last_line_ends_with_newline bytes r nm idx :
  len (bytes ++ [newline]) <= Int64.max_int ->
  buildOffsets (mkIndex (bytes ++ [newline]) [] r nm) = (idx, None) ->
  exists line, GetLine idx (LineCount idx) = Ok (line ++ [newline]).
Proof.
  intros Hmax Hb.
  destruct (buildOffsets_well_formed _ _ _ _ Hmax Hb)
    as (_ & Hidx & (H0 & Hs & Hbd & Hl & _) & Hc).
  assert (Hdata : data idx = bytes ++ [newline]) by (subst idx; reflexivity).
  assert (Hcnt : 1 <= LineCount idx).
  { rewrite Hc. pose proof (count_newlines_bound (removelast (bytes ++ [newline]))). lia. }
  unfold LineCount in Hcnt. rewrite Hdata in Hbd, Hl.
  rewrite len_app in Hmax, Hbd, Hl. change (len [newline]) with 1 in *.
  pose proof (len_nonneg bytes) as Hnb.
  unfold GetLine, LineCount.
  destruct (Z.ltb_spec (len (offsets idx)) 1); [lia |].
  rewrite Z.gtb_ltb, Z.ltb_irrefl. cbn [orb].
  assert (S1 : Int64.sub (len (offsets idx)) 1 = len (offsets idx) - 1).
  { apply wrap_small. range_consts. lia. }
  rewrite S1.
  destruct (index_in_range (offsets idx) (len (offsets idx) - 1))
    as (start & Hi & Hnth); [lia |].
  rewrite Hi. cbn [bind].
  assert (Bs : 0 <= start < len bytes + 1).
  { rewrite Forall_forall in Hbd. apply Hbd. eapply nth_error_In. exact Hnth. }
  rewrite Hdata, len_app. change (len [newline]) with 1.
  rewrite u64_small by lia. cbn [bind].
  rewrite Z.gtb_ltb. destruct (Z.ltb_spec start (len bytes + 1)); [| lia].
  assert (U : U64.sub (len bytes + 1) 1 = len bytes).
  { unfold U64.sub. rewrite u64_small by lia. lia. }
  rewrite U.
  assert (Hlast : index (bytes ++ [newline]) (len bytes) = Ok newline).
  { destruct (index_in_range (bytes ++ [newline]) (len bytes)) as (b & Hb' & Hn).
    - rewrite len_app. change (len [newline]) with 1. lia.
    - rewrite Hb'. f_equal. unfold len in Hn. rewrite Nat2Z.id in Hn.
      rewrite nth_error_app2, Nat.sub_diag in Hn by lia.
      cbn in Hn. congruence. }
  rewrite Hlast. cbn [bind].
  change (Byte.eqb newline carriage_return) with false. cbv iota. cbn [bind].
  rewrite slice_in_range by (rewrite ?len_app; change (len [newline]) with 1; lia).
  exists (skipn (Z.to_nat start) bytes). f_equal.
  rewrite skipn_app.
  replace (Z.to_nat start - List.length bytes)%nat with 0%nat
    by (unfold len in Bs; lia).
  cbn [skipn]. apply firstn_all2.
  rewrite length_app, length_skipn. cbn [List.length]. unfold len in *. lia.
Qed.

(** Claim C1, as the code behaves on the claim's own example.  For the
    3-line file "line1\nline2\nline3\n", [OpenReader] builds an index of 3
    lines; [GetLineString 1] is "line1", but [GetLineString 3] is "line3"
    followed by the newline byte: on the last line [GetLine] takes the byte
    length as the end and never trims the newline. *)
Theorem GetLineString_last_line_keeps_newline :
  exists idx,
    OpenReader (ReadData three_lines) "test"%string = (Some idx, None) /\
    LineCount idx = 3 /\
    GetLineString idx 1 = Ok "line1"%string /\
    GetLineString idx 3 = Ok ("line3" ++ LF)%string /\
    GetLineString idx 3 <> Ok "line3"%string.
Proof.
  eexists. split; [vm_compute; reflexivity |].
  split; [reflexivity |]. split; [reflexivity |]. split; [reflexivity |].
  vm_compute. discriminate.
Qed.

(* ================================================================= *)
(** ** Proofs: closed forms of the viewport commands

    On consistent states, and as long as [totalLines + height] stays
    inside the [int] range, [clamp] and every command have a closed
    form in terms of [Z.min] and [Z.max]. *)

Lemma window_end_exact o h :
  Int64.in_range o -> 1 <= h <= Int64.max_int -> o + h - 1 <= Int64.max_int ->
  Int64.sub (Int64.add o h) 1 = o + h - 1.
Proof.
  intros Ho Hh Hs. range_consts. unwrap. lia.
Qed.

Lemma consistent_window v :
  consistent v -> 1 <= TotalLines v ->
  Int64.sub (Int64.add (Offset v) (Height v)) 1 = Offset v + Height v - 1.
Proof.
  intros (HT & Hh & Hp & _) G. specialize (Hp G).
  apply window_end_exact; range_consts; lia.
Qed.

(** The window [VisibleRange] reports in a consistent state. *)
Lemma VisibleRange_closed v :
  consistent v -> 1 <= TotalLines v ->
  VisibleRange v = (Offset v, Z.min (Offset v + Height v - 1) (TotalLines v)).
Proof.
  intros Hc G. pose proof (consistent_window v Hc G) as W.
  destruct Hc as (HT & Hh & Hp & _). specialize (Hp G).
  unfold VisibleRange. rewrite W.
  rewrite (Z.gtb_ltb (Offset v + Height v - 1)).
  destruct (Z.ltb_spec (TotalLines v) (Offset v + Height v - 1));
    f_equal; lia.
Qed.

(** Property X1.  In every consistent state with at least one line,
    [VisibleRange] returns [(offset, min (offset + height - 1) totalLines)]:
    the window starts on a line, never runs past the last line, and shows
    exactly [min height totalLines] lines. *)
Theorem VisibleRange_full_window v :
  consistent v -> 1 <= TotalLines v ->
  VisibleRange v = (Offset v, Z.min (Offset v + Height v - 1) (TotalLines v)) /\
  1 <= fst (VisibleRange v) /\
  snd (VisibleRange v) <= TotalLines v /\
  snd (VisibleRange v) - fst (VisibleRange v) + 1 =
    Z.min (Height v) (TotalLines v).
Proof.
  intros Hc G. rewrite (VisibleRange_closed v Hc G).
  destruct Hc as (HT & Hh & Hp & _). specialize (Hp G).
  cbn [fst snd]. split; [reflexivity | lia].
Qed.

Lemma VisibleRange_full_window_witness :
  let v := run (CGoto 42) (New 100 10) in
  consistent v /\ 1 <= TotalLines v /\
  snd (VisibleRange v) - fst (VisibleRange v) + 1 =
    Z.min (Height v) (TotalLines v).
Proof.
  cbv zeta.
  assert (H0 : consistent (run (CGoto 42) (New 100 10))).
  { apply reachable_consistent. apply reach_run.
    - apply reach_New; unfold Int64.in_range, Int64.min_int, Int64.max_int; lia.
    - unfold well_typed, arg_of, Int64.in_range, Int64.min_int, Int64.max_int.
      lia. }
  assert (H1 : 1 <= TotalLines (run (CGoto 42) (New 100 10)))
    by (vm_compute; discriminate).
  split; [exact H0 |]. split; [exact H1 |].
  destruct (VisibleRange_full_window _ H0 H1) as (_ & _ & _ & A).
  exact A.
Defined.

(** Property X2.  In every consistent state with at least one line the
    cursor line is visible ([IsVisible] of the cursor is true), and
    [CursorRelative] is the plain difference [cursor - offset], a row
    index in [0, height). *)
Theorem cursor_is_visible v :
  consistent v -> 1 <= TotalLines v ->
  IsVisible v (Cursor v) = true /\
  0 <= CursorRelative v < Height v /\
  CursorRelative v = Cursor v - Offset v.
Proof.
  intros Hc G. pose proof (VisibleRange_closed v Hc G) as E.
  destruct Hc as (HT & Hh & Hp & _). specialize (Hp G).
  unfold IsVisible. rewrite E. split.
  - rewrite Z.geb_leb. apply andb_true_intro. split; apply Z.leb_le; lia.
  - unfold CursorRelative.
    assert (W : Int64.sub (Cursor v) (Offset v) = Cursor v - Offset v).
    { apply wrap_small. range_consts. lia. }
    rewrite W. lia.
Qed.

Lemma cursor_is_visible_witness :
  let v := run (CGoto 42) (New 100 10) in
  consistent v /\ 1 <= TotalLines v /\
  IsVisible v (Cursor v) = true.
Proof.
  cbv zeta.
  assert (H0 : consistent (run (CGoto 42) (New 100 10))).
  { apply reachable_consistent. apply reach_run.
    - apply reach_New; unfold Int64.in_range, Int64.min_int, Int64.max_int; lia.
    - unfold well_typed, arg_of, Int64.in_range, Int64.min_int, Int64.max_int.
      lia. }
  assert (H1 : 1 <= TotalLines (run (CGoto 42) (New 100 10)))
    by (vm_compute; discriminate).
  split; [exact H0 |]. split; [exact H1 |].
  destruct (cursor_is_visible _ H0 H1) as (A & _).
  exact A.
Defined.

(** [clamp] never moves a cursor that is already on a line. *)
Lemma clamp_keeps_valid_cursor v :
  1 <= Cursor v <= TotalLines v -> Cursor (clamp v) = Cursor v.
Proof.
  intros H. rewrite clamp_Cursor_pos by lia. apply clamp_cursor_id. exact H.
Qed.

Lemma clamp_Offset_pos v :
  1 <= TotalLines v ->
  Offset (clamp v) =
  bound_offset (TotalLines v) (Height v)
    (reveal_offset (Height v)
       (clamp_cursor (TotalLines v) (Cursor v)) (Offset v)).
Proof. intros G. rewrite clamp_unfold by exact G. reflexivity. Qed.

(** The offset [clamp] computes when nothing overflows. *)
Lemma clamp_offset_closed T h c o :
  1 <= T -> 1 <= h -> T + h <= Int64.max_int -> Int64.in_range o ->
  1 <= c <= T ->
  bound_offset T h (reveal_offset h c o) =
  Z.min (Z.max 1 (if c <? o then c
                  else if o + h <=? c then c - h + 1 else o))
        (Z.max 1 (T - h + 1)).
Proof.
  intros HT Hh Hs Ho Hc.
  rewrite bound_offset_eq by (range_consts; lia).
  destruct (reveal_offset_no_overflow h c o) as (R1 & R2 & R3);
    try (range_consts; lia).
  destruct (Z.ltb_spec c o); [rewrite R1 by lia; reflexivity |].
  destruct (Z.leb_spec (o + h) c);
    [rewrite R3 by lia | rewrite R2 by lia]; lia.
Qed.

Lemma clamp_closed T h c o :
  1 <= T -> 1 <= h -> T + h <= Int64.max_int -> Int64.in_range o ->
  clamp (mkViewport T h c o) =
  let c' := Z.max 1 (Z.min c T) in
  mkViewport T h c'
    (Z.min (Z.max 1 (if c' <? o then c'
                     else if o + h <=? c' then c' - h + 1 else o))
           (Z.max 1 (T - h + 1))).
Proof.
  intros HT Hh Hs Ho. cbv zeta.
  rewrite clamp_unfold by exact HT. cbn [TotalLines Height Cursor Offset].
  rewrite clamp_cursor_eq by exact HT.
  rewrite clamp_offset_closed by (try assumption; lia). reflexivity.
Qed.

(** Property X3.  [clamp] is idempotent: on any state whose fields are
    [int]s, with a positive height and [totalLines + height] inside the
    [int] range, clamping twice is clamping once; and a state that is
    already consistent is left exactly as it is. *)
Theorem clamp_idempotent v :
  Int64.in_range (TotalLines v) -> Int64.in_range (Cursor v) ->
  Int64.in_range (Offset v) -> 1 <= Height v <= Int64.max_int ->
  TotalLines v + Height v <= Int64.max_int ->
  clamp (clamp v) = clamp v /\ (consistent v -> clamp v = v).
Proof.
  assert (E : forall w, consistent w ->
                TotalLines w + Height w <= Int64.max_int -> clamp w = w).
  { intros w Hc Hs. pose proof (consistent_ranges w Hc) as [Rc Ro].
    destruct Hc as (HT & Hh & Hp & Hz). destruct w as [T h c o].
    cbn [TotalLines Height Cursor Offset] in *.
    destruct (Z.lt_ge_cases T 1) as [L | G].
    - rewrite clamp_zero by exact L. destruct (Hz L) as [-> ->]. reflexivity.
    - specialize (Hp G). rewrite clamp_closed by (try assumption; lia).
      cbv zeta. f_equal; [lia |].
      replace (Z.max 1 (Z.min c T)) with c by lia.
      destruct (Z.ltb_spec c o); [lia |].
      destruct (Z.leb_spec (o + h) c); lia. }
  intros HT Hc Ho Hh Hs. split.
  - apply E.
    + destruct v as [T h c o]. cbn [TotalLines Height Cursor Offset] in *.
      apply clamp_consistent; assumption.
    + rewrite clamp_TotalLines, clamp_Height. exact Hs.
  - intros Hcons. apply E; assumption.
Qed.

Lemma clamp_idempotent_witness :
  let v := mkViewport 100 10 150 (-5) in
  Int64.in_range (TotalLines v) /\ Int64.in_range (Cursor v) /\
  Int64.in_range (Offset v) /\ 1 <= Height v <= Int64.max_int /\
  TotalLines v + Height v <= Int64.max_int /\
  clamp (clamp v) = clamp v.
Proof.
  cbv zeta.
  assert (H1 : Int64.in_range (TotalLines (mkViewport 100 10 150 (-5))))
    by (split; vm_compute; discriminate).
  assert (H2 : Int64.in_range (Cursor (mkViewport 100 10 150 (-5))))
    by (split; vm_compute; discriminate).
  assert (H3 : Int64.in_range (Offset (mkViewport 100 10 150 (-5))))
    by (split; vm_compute; discriminate).
  assert (H4 : 1 <= Height (mkViewport 100 10 150 (-5)) <= Int64.max_int)
    by (split; vm_compute; discriminate).
  assert (H5 : TotalLines (mkViewport 100 10 150 (-5))
               + Height (mkViewport 100 10 150 (-5)) <= Int64.max_int)
    by (vm_compute; discriminate).
  split; [exact H1 |]. split; [exact H2 |]. split; [exact H3 |].
  split; [exact H4 |]. split; [exact H5 |].
  apply (proj1 (clamp_idempotent _ H1 H2 H3 H4 H5)).
Defined.




(** The facts a consistent state with at least one line provides. *)
Lemma consistent_facts T h c o :
  consistent (mkViewport T h c o) -> 1 <= T ->
  1 <= h /\ 1 <= c <= T /\ o <= c <= o + h - 1 /\
  1 <= o <= Z.max 1 (T - h + 1) /\ Int64.in_range o /\ Int64.in_range c.
Proof.
  intros Hc G. pose proof (consistent_ranges _ Hc) as [Rc Ro].
  destruct Hc as (HT & Hh & Hp & _). specialize (Hp G).
  cbn [TotalLines Height Cursor Offset] in *.
  split; [lia |]. split; [lia |]. split; [lia |]. split; [lia |].
  split; assumption.
Qed.


Ltac facts Hc G :=
  let Hh := fresh "Hh" in let Bc := fresh "Bc" in
  let Bv := fresh "Bv" in let Bo := fresh "Bo" in
  let Ro := fresh "Ro" in let Rc := fresh "Rc" in
  destruct (consistent_facts _ _ _ _ Hc G) as (Hh & Bc & Bv & Bo & Ro & Rc);
  cbn [TotalLines Height Cursor Offset] in *.

(** Property X4.  Cursor motion by [n >= 1] lines from a consistent
    state, when nothing overflows: [Down n] puts the cursor on
    [min (cursor + n) totalLines] and scrolls only as far as needed
    (offset becomes [max offset (cursor' - height + 1)]); [Up n] puts it
    on [max (cursor - n) 1] with offset [min offset cursor']; and [Up n]
    after [Down n] brings the cursor back whenever [Down n] did not hit
    the last line. *)
Theorem Down_Up_closed_form v n :
  consistent v -> 1 <= TotalLines v ->
  TotalLines v + Height v <= Int64.max_int -> 1 <= n <= Int64.max_int ->
  (Cursor v + n <= Int64.max_int ->
     Cursor (Down n v) = Z.min (Cursor v + n) (TotalLines v) /\
     Offset (Down n v) =
       Z.max (Offset v) (Cursor (Down n v) - Height v + 1)) /\
  Cursor (Up n v) = Z.max (Cursor v - n) 1 /\
  Offset (Up n v) = Z.min (Offset v) (Cursor (Up n v)) /\
  (Cursor v + n <= TotalLines v -> Cursor (Up n (Down n v)) = Cursor v).
Proof.
  intros Hc G Hs Hn. destruct v as [T h c o].
  destruct (consistent_facts _ _ _ _ Hc G) as (Hh & Bc & Bv & Bo & Ro & Rc).
  cbn [TotalLines Height Cursor Offset] in *.
  assert (D : c + n <= Int64.max_int ->
              Down n (mkViewport T h c o) =
              mkViewport T h (Z.min (c + n) T)
                (Z.max o (Z.min (c + n) T - h + 1))).
  { intros Hcn. rewrite Down_as_Goto by lia. unfold Goto, set_Cursor.
    cbn [TotalLines Height Cursor Offset].
    assert (W : Int64.add c n = c + n) by (apply wrap_small; range_consts; lia).
    rewrite W, clamp_closed by (try assumption; lia). cbv zeta.
    replace (Z.max 1 (Z.min (c + n) T)) with (Z.min (c + n) T) by lia.
    f_equal.
    destruct (Z.ltb_spec (Z.min (c + n) T) o); [lia |].
    destruct (Z.leb_spec (o + h) (Z.min (c + n) T)); lia. }
  assert (U : forall c0 o0, 1 <= c0 <= T -> o0 <= c0 <= o0 + h - 1 ->
              1 <= o0 <= Z.max 1 (T - h + 1) ->
              Up n (mkViewport T h c0 o0) =
              mkViewport T h (Z.max (c0 - n) 1) (Z.min o0 (Z.max (c0 - n) 1))).
  { intros c0 o0 B1 B2 B3. rewrite Up_as_Goto by lia. unfold Goto, set_Cursor.
    cbn [TotalLines Height Cursor Offset].
    assert (W : Int64.sub c0 n = c0 - n) by (apply wrap_small; range_consts; lia).
    rewrite W, clamp_closed by (try assumption; range_consts; lia). cbv zeta.
    replace (Z.max 1 (Z.min (c0 - n) T)) with (Z.max (c0 - n) 1) by lia.
    f_equal.
    destruct (Z.ltb_spec (Z.max (c0 - n) 1) o0); [lia |].
    destruct (Z.leb_spec (o0 + h) (Z.max (c0 - n) 1)); lia. }
  split; [| split; [| split]].
  - intros Hcn. rewrite (D Hcn). cbn [Cursor Offset]. split; reflexivity.
  - rewrite U by lia. reflexivity.
  - rewrite U by lia. reflexivity.
  - intros Hle. rewrite D by lia. rewrite U by lia. cbn [Cursor]. lia.
Qed.

Lemma Down_Up_closed_form_witness :
  let v := New 100 10 in
  consistent v /\ 1 <= TotalLines v /\
  TotalLines v + Height v <= Int64.max_int /\ 1 <= 150 <= Int64.max_int /\
  Cursor v + 150 <= Int64.max_int /\
  Cursor (Down 150 v) = 100 /\ Offset (Down 150 v) = 91.
Proof.
  cbv zeta.
  assert (H0 : consistent (New 100 10)).
  { apply reachable_consistent. apply reach_New;
      unfold Int64.in_range, Int64.min_int, Int64.max_int; lia. }
  assert (H1 : 1 <= TotalLines (New 100 10)) by (vm_compute; discriminate).
  assert (H2 : TotalLines (New 100 10) + Height (New 100 10) <= Int64.max_int)
    by (vm_compute; discriminate).
  assert (H3 : 1 <= 150 <= Int64.max_int) by (split; vm_compute; discriminate).
  assert (H4 : Cursor (New 100 10) + 150 <= Int64.max_int)
    by (vm_compute; discriminate).
  split; [exact H0 |]. split; [exact H1 |]. split; [exact H2 |].
  split; [exact H3 |]. split; [exact H4 |].
  destruct (proj1 (Down_Up_closed_form (New 100 10) 150 H0 H1 H2 H3) H4)
    as [A B].
  split; [rewrite A | rewrite B, A]; reflexivity.
Defined.

(** Property X5.  [ScrollDown] and [ScrollUp] never move the cursor of a
    consistent state, whatever [n] is; the window moves by [n] lines only
    as far as the cursor stays visible and the last screen allows:
    [ScrollUp n] gives offset [max 1 (max (offset - n) (cursor - height + 1))]
    and [ScrollDown n] gives
    [min (min (offset + n) cursor) (max 1 (totalLines - height + 1))]. *)
Theorem Scroll_keeps_cursor v n :
  consistent v ->
  Cursor (ScrollDown n v) = Cursor v /\
  Cursor (ScrollUp n v) = Cursor v /\
  (1 <= TotalLines v -> TotalLines v + Height v <= Int64.max_int ->
   1 <= n <= Int64.max_int ->
   Offset (ScrollUp n v) =
     Z.max 1 (Z.max (Offset v - n) (Cursor v - Height v + 1)) /\
   (Offset v + n <= Int64.max_int ->
    Offset (ScrollDown n v) =
      Z.min (Z.min (Offset v + n) (Cursor v))
            (Z.max 1 (TotalLines v - Height v + 1)))).
Proof.
  intros Hc.
  assert (K : forall o', Cursor (clamp (set_Offset o' v)) = Cursor v).
  { intros o'. destruct Hc as (_ & _ & Hp & Hz).
    destruct (Z.lt_ge_cases (TotalLines v) 1) as [L | G].
    - rewrite clamp_Cursor_zero by exact L. symmetry. apply (Hz L).
    - rewrite clamp_keeps_valid_cursor; [reflexivity |].
      unfold set_Offset. cbn [Cursor TotalLines]. apply (Hp G). }
  split; [| split].
  - unfold ScrollDown. destruct (n <? 1); [reflexivity | apply K].
  - unfold ScrollUp. destruct (n <? 1); [reflexivity | apply K].
  - intros G Hs Hn. destruct v as [T h c o].
    destruct (consistent_facts _ _ _ _ Hc G) as (Hh & Bc & Bv & Bo & Ro & Rc).
    cbn [TotalLines Height Cursor Offset] in *.
    unfold ScrollUp, ScrollDown, set_Offset.
    cbn [TotalLines Height Cursor Offset].
    destruct (Z.ltb_spec n 1); [lia |]. split.
    + assert (W : Int64.sub o n = o - n) by (apply wrap_small; range_consts; lia).
      rewrite W, clamp_closed by (try assumption; range_consts; lia).
      cbv zeta. cbn [Offset].
      replace (Z.max 1 (Z.min c T)) with c by lia.
      destruct (Z.ltb_spec c (o - n)); [lia |].
      destruct (Z.leb_spec (o - n + h) c); lia.
    + intros Hon.
      assert (W : Int64.add o n = o + n) by (apply wrap_small; range_consts; lia).
      rewrite W, clamp_closed by (try assumption; range_consts; lia).
      cbv zeta. cbn [Offset].
      replace (Z.max 1 (Z.min c T)) with c by lia.
      destruct (Z.ltb_spec c (o + n)); [lia |].
      destruct (Z.leb_spec (o + n + h) c); lia.
Qed.

Lemma Scroll_keeps_cursor_witness :
  let v := run (CGoto 5) (New 100 10) in
  consistent v /\
  Cursor (ScrollDown 3 v) = Cursor v /\ Cursor (ScrollUp 2 v) = Cursor v.
Proof.
  cbv zeta.
  assert (H0 : consistent (run (CGoto 5) (New 100 10))).
  { apply reachable_consistent. apply reach_run.
    - apply reach_New; unfold Int64.in_range, Int64.min_int, Int64.max_int; lia.
    - unfold well_typed, arg_of, Int64.in_range, Int64.min_int, Int64.max_int.
      lia. }
  split; [exact H0 |].
  destruct (Scroll_keeps_cursor _ 3 H0) as (A & _ & _).
  destruct (Scroll_keeps_cursor _ 2 H0) as (_ & B & _).
  split; [exact A | exact B].
Defined.






















Lemma Goto_closed T h c o l :
  consistent (mkViewport T h c o) -> 1 <= T -> T + h <= Int64.max_int ->
  Goto l (mkViewport T h c o) =
  let l' := Z.max 1 (Z.min l T) in
  mkViewport T h l'
    (if l' <? o then l' else if o + h <=? l' then l' - h + 1 else o).
Proof.
  intros Hc G Hs. facts Hc G.
  unfold Goto, set_Cursor. cbn [TotalLines Height Cursor Offset].
  rewrite clamp_closed by (try assumption; range_consts; lia). cbv zeta.
  f_equal.
  destruct (Z.ltb_spec (Z.max 1 (Z.min l T)) o); [lia |].
  destruct (Z.leb_spec (o + h) (Z.max 1 (Z.min l T))); lia.
Qed.



(** Property X9.  From any consistent state with at least one line,
    [GotoTop] yields cursor 1 and offset 1, which is exactly the initial
    state [New totalLines height]; [GotoBottom] yields cursor
    [totalLines] on the last screen, offset
    [max 1 (totalLines - height + 1)].  Neither result depends on where
    the cursor and window were. *)
Theorem GotoTop_GotoBottom_states v :
  consistent v -> 1 <= TotalLines v ->
  TotalLines v + Height v <= Int64.max_int ->
  GotoTop v = mkViewport (TotalLines v) (Height v) 1 1 /\
  GotoTop v = New (TotalLines v) (Height v) /\
  GotoBottom v =
    mkViewport (TotalLines v) (Height v) (TotalLines v)
      (Z.max 1 (TotalLines v - Height v + 1)).
Proof.
  intros Hc G Hs. destruct v as [T h c o].
  cbn [TotalLines Height Cursor Offset] in *.
  unfold GotoTop, GotoBottom. cbn [TotalLines].
  rewrite !(Goto_closed _ _ _ _ _ Hc G Hs). cbv zeta. facts Hc G.
  assert (E1 : mkViewport T h (Z.max 1 (Z.min 1 T))
                 (if Z.max 1 (Z.min 1 T) <? o then Z.max 1 (Z.min 1 T)
                  else if o + h <=? Z.max 1 (Z.min 1 T)
                       then Z.max 1 (Z.min 1 T) - h + 1 else o) =
               mkViewport T h 1 1).
  { replace (Z.max 1 (Z.min 1 T)) with 1 by lia. f_equal.
    destruct (Z.ltb_spec 1 o); [reflexivity |].
    destruct (Z.leb_spec (o + h) 1); lia. }
  rewrite E1. split; [reflexivity |]. split.
  - unfold New. rewrite clamp_closed by (try assumption; range_consts; lia).
    cbv zeta. replace (Z.max 1 (Z.min 1 T)) with 1 by lia. f_equal.
    destruct (Z.ltb_spec 1 1); [lia |].
    destruct (Z.leb_spec (1 + h) 1); lia.
  - replace (Z.max 1 (Z.min T T)) with T by lia. f_equal.
    destruct (Z.ltb_spec T o); [lia |].
    destruct (Z.leb_spec (o + h) T); lia.
Qed.

Lemma GotoTop_GotoBottom_states_witness :
  let v := run (CGoto 42) (New 100 10) in
  consistent v /\ 1 <= TotalLines v /\
  TotalLines v + Height v <= Int64.max_int /\
  GotoTop v = New (TotalLines v) (Height v).
Proof.
  cbv zeta.
  assert (H0 : consistent (run (CGoto 42) (New 100 10))).
  { apply reachable_consistent. apply reach_run.
    - apply reach_New; unfold Int64.in_range, Int64.min_int, Int64.max_int; lia.
    - unfold well_typed, arg_of, Int64.in_range, Int64.min_int, Int64.max_int.
      lia. }
  assert (H1 : 1 <= TotalLines (run (CGoto 42) (New 100 10)))
    by (vm_compute; discriminate).
  assert (H2 : TotalLines (run (CGoto 42) (New 100 10)) +
               Height (run (CGoto 42) (New 100 10)) <= Int64.max_int)
    by (vm_compute; discriminate).
  split; [exact H0 |]. split; [exact H1 |]. split; [exact H2 |].
  destruct (GotoTop_GotoBottom_states _ H0 H1 H2) as (_ & A & _).
  exact A.
Defined.















(** *** Motions add up *)
Lemma Down_closed T h c o n :
  consistent (mkViewport T h c o) -> 1 <= T -> T + h <= Int64.max_int ->
  1 <= n -> c + n <= Int64.max_int ->
  Down n (mkViewport T h c o) =
  mkViewport T h (Z.min (c + n) T) (Z.max o (Z.min (c + n) T - h + 1)).
Proof.
  intros Hc G Hs Hn Hcn. facts Hc G.
  rewrite Down_as_Goto by lia. unfold Goto, set_Cursor.
  cbn [TotalLines Height Cursor Offset].
  assert (W : Int64.add c n = c + n) by (apply wrap_small; range_consts; lia).
  rewrite W, clamp_closed by (try assumption; lia). cbv zeta.
  replace (Z.max 1 (Z.min (c + n) T)) with (Z.min (c + n) T) by lia.
  f_equal.
  destruct (Z.ltb_spec (Z.min (c + n) T) o); [lia |].
  destruct (Z.leb_spec (o + h) (Z.min (c + n) T)); lia.
Qed.

Lemma Up_closed T h c o n :
  consistent (mkViewport T h c o) -> 1 <= T -> T + h <= Int64.max_int ->
  1 <= n <= Int64.max_int ->
  Up n (mkViewport T h c o) =
  mkViewport T h (Z.max (c - n) 1) (Z.min o (Z.max (c - n) 1)).
Proof.
  intros Hc G Hs Hn. facts Hc G.
  rewrite Up_as_Goto by lia. unfold Goto, set_Cursor.
  cbn [TotalLines Height Cursor Offset].
  assert (W : Int64.sub c n = c - n) by (apply wrap_small; range_consts; lia).
  rewrite W, clamp_closed by (try assumption; range_consts; lia). cbv zeta.
  replace (Z.max 1 (Z.min (c - n) T)) with (Z.max (c - n) 1) by lia.
  f_equal.
  destruct (Z.ltb_spec (Z.max (c - n) 1) o); [lia |].
  destruct (Z.leb_spec (o + h) (Z.max (c - n) 1)); lia.
Qed.

Lemma ScrollDown_closed T h c o n :
  consistent (mkViewport T h c o) -> 1 <= T -> T + h <= Int64.max_int ->
  1 <= n -> o + n <= Int64.max_int ->
  ScrollDown n (mkViewport T h c o) =
  mkViewport T h c (Z.min (Z.min (o + n) c) (Z.max 1 (T - h + 1))).
Proof.
  intros Hc G Hs Hn Hon. facts Hc G.
  unfold ScrollDown, set_Offset. cbn [TotalLines Height Cursor Offset].
  destruct (Z.ltb_spec n 1); [lia |].
  assert (W : Int64.add o n = o + n) by (apply wrap_small; range_consts; lia).
  rewrite W, clamp_closed by (try assumption; range_consts; lia). cbv zeta.
  replace (Z.max 1 (Z.min c T)) with c by lia. f_equal.
  destruct (Z.ltb_spec c (o + n)); [lia |].
  destruct (Z.leb_spec (o + n + h) c); lia.
Qed.

Lemma ScrollUp_closed T h c o n :
  consistent (mkViewport T h c o) -> 1 <= T -> T + h <= Int64.max_int ->
  1 <= n <= Int64.max_int ->
  ScrollUp n (mkViewport T h c o) =
  mkViewport T h c (Z.max 1 (Z.max (o - n) (c - h + 1))).
Proof.
  intros Hc G Hs Hn. facts Hc G.
  unfold ScrollUp, set_Offset. cbn [TotalLines Height Cursor Offset].
  destruct (Z.ltb_spec n 1); [lia |].
  assert (W : Int64.sub o n = o - n) by (apply wrap_small; range_consts; lia).
  rewrite W, clamp_closed by (try assumption; range_consts; lia). cbv zeta.
  replace (Z.max 1 (Z.min c T)) with c by lia. f_equal.
  destruct (Z.ltb_spec c (o - n)); [lia |].
  destruct (Z.leb_spec (o - n + h) c); lia.
Qed.

Lemma Down_run n v : Down n v = run (CDown n) v.
Proof. exact (eq_refl (Down n v)). Qed.

Lemma Up_run n v : Up n v = run (CUp n) v.
Proof. exact (eq_refl (Up n v)). Qed.

Lemma ScrollDown_run n v : ScrollDown n v = run (CScrollDown n) v.
Proof. exact (eq_refl (ScrollDown n v)). Qed.

Lemma ScrollUp_run n v : ScrollUp n v = run (CScrollUp n) v.
Proof. exact (eq_refl (ScrollUp n v)). Qed.

Lemma Down_Down_add v a b :
  consistent v -> 1 <= TotalLines v ->
  TotalLines v + Height v <= Int64.max_int ->
  1 <= a -> 1 <= b -> TotalLines v + a + b <= Int64.max_int ->
  Down a (Down b v) = Down (a + b) v.
Proof.
  intros Hc G Hs Ha Hb Hab. destruct v as [T h c o].
  cbn [TotalLines Height Cursor Offset] in *.
  assert (Rb : Int64.in_range b) by (range_consts; lia).
  assert (Cd : consistent (Down b (mkViewport T h c o))).
  { rewrite Down_run. apply run_consistent; [exact Hc | exact Rb]. }
  pose proof Hc as Hc0. facts Hc0 G.
  pose proof (Down_closed T h c o b Hc G Hs) as E1.
  pose proof (Down_closed T h c o (a + b) Hc G Hs) as E2.
  rewrite E1 in Cd |- * by lia. rewrite E2 by lia.
  rewrite (Down_closed _ _ _ _ a Cd G Hs) by lia.
  clear E1 E2 Cd Hc.
  f_equal; lia.
Qed.

Lemma Up_Up_add v a b :
  consistent v -> 1 <= TotalLines v ->
  TotalLines v + Height v <= Int64.max_int ->
  1 <= a -> 1 <= b -> TotalLines v + a + b <= Int64.max_int ->
  Up a (Up b v) = Up (a + b) v.
Proof.
  intros Hc G Hs Ha Hb Hab. destruct v as [T h c o].
  cbn [TotalLines Height Cursor Offset] in *.
  assert (Rb : Int64.in_range b) by (range_consts; lia).
  assert (Cd : consistent (Up b (mkViewport T h c o))).
  { rewrite Up_run. apply run_consistent; [exact Hc | exact Rb]. }
  pose proof Hc as Hc0. facts Hc0 G.
  pose proof (Up_closed T h c o b Hc G Hs) as E1.
  pose proof (Up_closed T h c o (a + b) Hc G Hs) as E2.
  rewrite E1 in Cd |- * by lia. rewrite E2 by lia.
  rewrite (Up_closed _ _ _ _ a Cd G Hs) by lia.
  clear E1 E2 Cd Hc.
  f_equal; lia.
Qed.

Lemma ScrollDown_ScrollDown_add v a b :
  consistent v -> 1 <= TotalLines v ->
  TotalLines v + Height v <= Int64.max_int ->
  1 <= a -> 1 <= b -> TotalLines v + a + b <= Int64.max_int ->
  ScrollDown a (ScrollDown b v) = ScrollDown (a + b) v.
Proof.
  intros Hc G Hs Ha Hb Hab. destruct v as [T h c o].
  cbn [TotalLines Height Cursor Offset] in *.
  assert (Rb : Int64.in_range b) by (range_consts; lia).
  assert (Cd : consistent (ScrollDown b (mkViewport T h c o))).
  { rewrite ScrollDown_run. apply run_consistent; [exact Hc | exact Rb]. }
  pose proof Hc as Hc0. facts Hc0 G.
  pose proof (ScrollDown_closed T h c o b Hc G Hs) as E1.
  pose proof (ScrollDown_closed T h c o (a + b) Hc G Hs) as E2.
  rewrite E1 in Cd |- * by lia. rewrite E2 by lia.
  rewrite (ScrollDown_closed _ _ _ _ a Cd G Hs) by lia.
  clear E1 E2 Cd Hc.
  f_equal; lia.
Qed.

Lemma ScrollUp_ScrollUp_add v a b :
  consistent v -> 1 <= TotalLines v ->
  TotalLines v + Height v <= Int64.max_int ->
  1 <= a -> 1 <= b -> TotalLines v + a + b <= Int64.max_int ->
  ScrollUp a (ScrollUp b v) = ScrollUp (a + b) v.
Proof.
  intros Hc G Hs Ha Hb Hab. destruct v as [T h c o].
  cbn [TotalLines Height Cursor Offset] in *.
  assert (Rb : Int64.in_range b) by (range_consts; lia).
  assert (Cd : consistent (ScrollUp b (mkViewport T h c o))).
  { rewrite ScrollUp_run. apply run_consistent; [exact Hc | exact Rb]. }
  pose proof Hc as Hc0. facts Hc0 G.
  pose proof (ScrollUp_closed T h c o b Hc G Hs) as E1.
  pose proof (ScrollUp_closed T h c o (a + b) Hc G Hs) as E2.
  rewrite E1 in Cd |- * by lia. rewrite E2 by lia.
  rewrite (ScrollUp_closed _ _ _ _ a Cd G Hs) by lia.
  clear E1 E2 Cd Hc.
  f_equal; lia.
Qed.

(** Two motions of the same kind add up. *)
Lemma motions_compose_aux v a b :
  consistent v -> 1 <= TotalLines v ->
  TotalLines v + Height v <= Int64.max_int ->
  1 <= a -> 1 <= b -> TotalLines v + a + b <= Int64.max_int ->
  Down a (Down b v) = Down (a + b) v /\
  Up a (Up b v) = Up (a + b) v /\
  ScrollDown a (ScrollDown b v) = ScrollDown (a + b) v /\
  ScrollUp a (ScrollUp b v) = ScrollUp (a + b) v.
Proof.
  intros Hc G Hs Ha Hb Hab.
  split; [apply Down_Down_add; assumption |].
  split; [apply Up_Up_add; assumption |].
  split; [apply ScrollDown_ScrollDown_add; assumption |].
  apply ScrollUp_ScrollUp_add; assumption.
Qed.

(** Property X27.  Motions of the same kind add up: from a consistent
    state and without overflow, [Down a] after [Down b] is [Down (a + b)],
    and likewise for [Up], [ScrollDown] and [ScrollUp]; in particular two
    [Down]s, or two [Up]s, commute. *)
Theorem motions_compose v a b :
  consistent v -> 1 <= TotalLines v ->
  TotalLines v + Height v <= Int64.max_int ->
  1 <= a -> 1 <= b -> TotalLines v + a + b <= Int64.max_int ->
  Down a (Down b v) = Down (a + b) v /\
  Up a (Up b v) = Up (a + b) v /\
  ScrollDown a (ScrollDown b v) = ScrollDown (a + b) v /\
  ScrollUp a (ScrollUp b v) = ScrollUp (a + b) v /\
  Down a (Down b v) = Down b (Down a v) /\
  Up a (Up b v) = Up b (Up a v).
Proof.
  intros Hc G Hs Ha Hb Hab.
  destruct (motions_compose_aux v a b Hc G Hs Ha Hb Hab) as (A & B & C & D).
  destruct (motions_compose_aux v b a Hc G Hs Hb Ha ltac:(lia))
    as (A' & B' & _).
  split; [exact A |]. split; [exact B |]. split; [exact C |].
  split; [exact D |]. rewrite A, A', B, B', (Z.add_comm a b).
  split; reflexivity.
Qed.

Lemma motions_compose_witness :
  let v := run (CGoto 42) (New 100 10) in
  consistent v /\ 1 <= TotalLines v /\
  TotalLines v + Height v <= Int64.max_int /\
  1 <= 3 /\ 1 <= 4 /\ TotalLines v + 3 + 4 <= Int64.max_int /\
  Down 3 (Down 4 v) = Down (3 + 4) v.
Proof.
  cbv zeta.
  assert (H0 : consistent (run (CGoto 42) (New 100 10))).
  { apply reachable_consistent. apply reach_run.
    - apply reach_New; unfold Int64.in_range, Int64.min_int, Int64.max_int; lia.
    - unfold well_typed, arg_of, Int64.in_range, Int64.min_int, Int64.max_int.
      lia. }
  assert (H1 : 1 <= TotalLines (run (CGoto 42) (New 100 10)))
    by (vm_compute; discriminate).
  assert (H2 : TotalLines (run (CGoto 42) (New 100 10)) +
               Height (run (CGoto 42) (New 100 10)) <= Int64.max_int)
    by (vm_compute; discriminate).
  assert (H3 : 1 <= 3) by lia.
  assert (H4 : 1 <= 4) by lia.
  assert (H5 : TotalLines (run (CGoto 42) (New 100 10)) + 3 + 4
               <= Int64.max_int)
    by (vm_compute; discriminate).
  split; [exact H0 |]. split; [exact H1 |]. split; [exact H2 |].
  split; [exact H3 |]. split; [exact H4 |]. split; [exact H5 |].
  exact (proj1 (motions_compose _ 3 4 H0 H1 H2 H3 H4 H5)).
Defined.

(** Property X28.  Pressing "down" (or "up") [n] times is the same as one
    [Down n] (or [Up n]): for every [n >= 1], from a consistent state and
    without overflow, [n] applications of [Down 1] give the state
    [Down n] gives, and the same for [Up]. *)
Theorem repeated_Down_is_one_Down n v :
  consistent v -> 1 <= TotalLines v ->
  TotalLines v + Height v <= Int64.max_int ->
  TotalLines v + Z.of_nat (S n) <= Int64.max_int ->
  repeat_cmd (S n) (Down 1) v = Down (Z.of_nat (S n)) v /\
  repeat_cmd (S n) (Up 1) v = Up (Z.of_nat (S n)) v.
Proof.
  revert v. induction n as [| n IH]; intros v Hc G Hs Hn.
  - cbn [repeat_cmd]. split; reflexivity.
  - assert (R1 : Int64.in_range 1) by (range_consts; lia).
    assert (Cd : consistent (Down 1 v)).
    { rewrite Down_run. apply run_consistent; [exact Hc | exact R1]. }
    assert (Cu : consistent (Up 1 v)).
    { rewrite Up_run. apply run_consistent; [exact Hc | exact R1]. }
    assert (Sd : TotalLines (Down 1 v) = TotalLines v /\
                 Height (Down 1 v) = Height v).
    { unfold Down. destruct (1 <? 1); [split; reflexivity |].
      rewrite clamp_TotalLines, clamp_Height. split; reflexivity. }
    assert (Su : TotalLines (Up 1 v) = TotalLines v /\
                 Height (Up 1 v) = Height v).
    { unfold Up. destruct (1 <? 1); [split; reflexivity |].
      rewrite clamp_TotalLines, clamp_Height. split; reflexivity. }
    destruct Sd as [Sd1 Sd2]. destruct Su as [Su1 Su2].
    change (repeat_cmd (S (S n)) (Down 1) v)
      with (repeat_cmd (S n) (Down 1) (Down 1 v)).
    change (repeat_cmd (S (S n)) (Up 1) v)
      with (repeat_cmd (S n) (Up 1) (Up 1 v)).
    destruct (IH (Down 1 v) Cd) as [E1 _]; try (rewrite ?Sd1, ?Sd2; lia).
    destruct (IH (Up 1 v) Cu) as [_ E2]; try (rewrite ?Su1, ?Su2; lia).
    rewrite E1, E2.
    destruct (motions_compose_aux v (Z.of_nat (S n)) 1 Hc G Hs) as (A & B & _);
      try lia.
    rewrite A, B.
    replace (Z.of_nat (S n) + 1) with (Z.of_nat (S (S n))) by lia.
    split; reflexivity.
Qed.

Lemma repeated_Down_is_one_Down_witness :
  let v := run (CGoto 42) (New 100 10) in
  consistent v /\ 1 <= TotalLines v /\
  TotalLines v + Height v <= Int64.max_int /\
  TotalLines v + Z.of_nat 3 <= Int64.max_int /\
  repeat_cmd 3 (Down 1) v = Down (Z.of_nat 3) v.
Proof.
  cbv zeta.
  assert (H0 : consistent (run (CGoto 42) (New 100 10))).
  { apply reachable_consistent. apply reach_run.
    - apply reach_New; unfold Int64.in_range, Int64.min_int, Int64.max_int; lia.
    - unfold well_typed, arg_of, Int64.in_range, Int64.min_int, Int64.max_int.
      lia. }
  assert (H1 : 1 <= TotalLines (run (CGoto 42) (New 100 10)))
    by (vm_compute; discriminate).
  assert (H2 : TotalLines (run (CGoto 42) (New 100 10)) +
               Height (run (CGoto 42) (New 100 10)) <= Int64.max_int)
    by (vm_compute; discriminate).
  assert (H3 : TotalLines (run (CGoto 42) (New 100 10)) + Z.of_nat 3
               <= Int64.max_int)
    by (vm_compute; discriminate).
  split; [exact H0 |]. split; [exact H1 |]. split; [exact H2 |].
  split; [exact H3 |].
  exact (proj1 (repeated_Down_is_one_Down 2 _ H0 H1 H2 H3)).
Defined.

(* ================================================================= *)
(** ** Proofs: the contents of the offset table and of the lines *)

Lemma eqb_newline b : Byte.eqb b newline = true <-> b = newline.
Proof.
  split; [apply Byte.byte_dec_bl | apply Byte.byte_dec_lb].
Qed.

(** The loop records exactly the positions that follow a newline and lie
    inside the data. *)
Lemma scan_In n rest : forall i o,
  0 <= i -> i + len rest = n -> n <= Int64.max_int ->
  (In o (scan n i rest []) <->
   i < o < n /\ nth_error rest (Z.to_nat (o - 1 - i)) = Some newline).
Proof.
  induction rest as [| b rest IH]; intros i o H0 H1 H2.
  - cbn [scan In]. unfold len in H1. cbn [List.length] in H1.
    split; [contradiction | lia].
  - rewrite len_cons in H1. pose proof (len_nonneg rest) as Hr.
    rewrite scan_cons by lia. rewrite in_app_iff, (IH (i + 1) o) by lia.
    split.
    + intros [Hin | (Hr1 & Hr2)].
      * destruct (Byte.eqb b newline) eqn:E; [| contradiction].
        destruct (Z.ltb_spec (i + 1) n); [| contradiction].
        destruct Hin as [<- | []]. split; [lia |].
        replace (i + 1 - 1 - i) with 0 by lia. cbn.
        f_equal. apply eqb_newline. exact E.
      * split; [lia |].
        replace (Z.to_nat (o - 1 - i)) with (S (Z.to_nat (o - 1 - (i + 1))))
          by lia.
        exact Hr2.
    + intros (Hr1 & Hr2). destruct (Z.eq_dec o (i + 1)) as [-> | Hne].
      * left. replace (i + 1 - 1 - i) with 0 in Hr2 by lia. cbn in Hr2.
        injection Hr2 as ->. change (Byte.eqb newline newline) with true.
        destruct (Z.ltb_spec (i + 1) n); [| lia]. left. reflexivity.
      * right. split; [lia |].
        replace (Z.to_nat (o - 1 - i)) with (S (Z.to_nat (o - 1 - (i + 1))))
          in Hr2 by lia.
        exact Hr2.
Qed.

Lemma built_offsets_In bytes o :
  len bytes <= Int64.max_int ->
  (In o (0 :: scan (len bytes) 0 bytes []) <->
   o = 0 \/
   (1 <= o < len bytes /\ nth_error bytes (Z.to_nat (o - 1)) = Some newline)).
Proof.
  intros Hmax. cbn [In]. rewrite (scan_In (len bytes) bytes 0 o) by lia.
  replace (o - 1 - 0) with (o - 1) by lia.
  split; (intros [H | H]; [left; lia | right; split; [lia | apply H]]).
Qed.

(** Property X15.  The offset table of a built index holds exactly the
    line starts: an offset is in the table if and only if it is 0 or it
    is a position inside the data whose preceding byte is a newline.  No
    newline inside the data is missed and no entry is spurious; a
    newline that is the very last byte opens no line. *)
Theorem offsets_are_line_starts bytes r nm idx o :
  len bytes <= Int64.max_int ->
  buildOffsets (mkIndex bytes [] r nm) = (idx, None) ->
  (In o (offsets idx) <->
   o = 0 \/ (1 <= o < len bytes /\ index bytes (o - 1) = Ok newline)).
Proof.
  intros Hmax Hb.
  destruct (buildOffsets_well_formed _ _ _ _ Hmax Hb) as (_ & -> & _ & _).
  cbn [offsets]. rewrite built_offsets_In by exact Hmax.
  split; (intros [H | (H1 & H2)]; [left; exact H | right; split; [exact H1 |]]).
  - destruct (index_in_range bytes (o - 1)) as (b & Hb1 & Hb2); [lia |].
    rewrite Hb1. congruence.
  - destruct (index_in_range bytes (o - 1)) as (b & Hb1 & Hb2); [lia |].
    rewrite Hb2. congruence.
Qed.

Lemma offsets_are_line_starts_witness :
  let idx := fst (buildOffsets (mkIndex two_lines [] false "test"%string)) in
  len two_lines <= Int64.max_int /\
  buildOffsets (mkIndex two_lines [] false "test"%string) = (idx, None) /\
  In 6 (offsets idx).
Proof.
  cbv zeta.
  assert (H1 : len two_lines <= Int64.max_int) by (vm_compute; discriminate).
  assert (H2 : buildOffsets (mkIndex two_lines [] false "test"%string) =
               (fst (buildOffsets (mkIndex two_lines [] false "test"%string)), None))
    by (vm_compute; reflexivity).
  split; [exact H1 |]. split; [exact H2 |].
  apply (proj2 (offsets_are_line_starts _ _ _ _ 6 H1 H2)).
  right. split; [vm_compute; split; [discriminate | reflexivity] |].
  vm_compute. reflexivity.
Defined.




Lemma eqb_carriage_return b :
  Byte.eqb b carriage_return = true <-> b = carriage_return.
Proof.
  split; [apply Byte.byte_dec_bl | apply Byte.byte_dec_lb].
Qed.

Lemma sorted_nth_le (l : list Z) i j a b :
  StronglySorted Z.lt l -> (i <= j)%nat ->
  nth_error l i = Some a -> nth_error l j = Some b -> a <= b.
Proof.
  intros Hs Hij Ha Hb. destruct (Nat.eq_dec i j) as [-> | Hne].
  - rewrite Ha in Hb. injection Hb as ->. lia.
  - pose proof (sorted_nth_lt l i j a b Hs ltac:(lia) Ha Hb). lia.
Qed.

(** No entry of a sorted table lies strictly between two neighbours. *)
Lemma sorted_adjacent (l : list Z) k a b x :
  StronglySorted Z.lt l ->
  nth_error l k = Some a -> nth_error l (S k) = Some b ->
  In x l -> x <= a \/ b <= x.
Proof.
  intros Hs Ha Hb Hx. apply In_nth_error in Hx as [m Hm].
  destruct (Nat.le_gt_cases m k) as [Hle | Hgt].
  - left. exact (sorted_nth_le l m k x a Hs Hle Hm Ha).
  - right. exact (sorted_nth_le l (S k) m b x Hs ltac:(lia) Hb Hm).
Qed.

Lemma sorted_last_max (l : list Z) k a x :
  StronglySorted Z.lt l -> S k = List.length l ->
  nth_error l k = Some a -> In x l -> x <= a.
Proof.
  intros Hs Hk Ha Hx. apply In_nth_error in Hx as [m Hm].
  assert (Hlt : (m < List.length l)%nat).
  { apply nth_error_Some. rewrite Hm. discriminate. }
  exact (sorted_nth_le l m k x a Hs ltac:(lia) Hm Ha).
Qed.

(** [data[lo:hi]] as a list, and its elements. *)
Lemma In_segment {A} (d : list A) lo k x :
  In x (firstn k (skipn lo d)) ->
  exists j, (j < k)%nat /\ nth_error d (lo + j) = Some x.
Proof.
  intros H. apply In_nth_error in H as [j Hj].
  assert (Hlt : (j < k)%nat).
  { destruct (Nat.lt_ge_cases j k) as [L | G]; [exact L |].
    rewrite nth_error_firstn in Hj.
    destruct (Nat.ltb_spec j k); [lia | discriminate]. }
  exists j. split; [exact Hlt |].
  rewrite nth_error_firstn in Hj.
  destruct (Nat.ltb_spec j k); [| lia].
  rewrite nth_error_skipn in Hj. exact Hj.
Qed.

Lemma segment_snoc {A} (d : list A) lo k x :
  nth_error d (lo + k) = Some x ->
  firstn (S k) (skipn lo d) = firstn k (skipn lo d) ++ [x].
Proof.
  intros H. rewrite <- nth_error_skipn in H.
  revert H. generalize (skipn lo d) as l. clear d lo.
  induction k as [| k IH]; intros l H.
  - destruct l as [| y l]; [discriminate |]. cbn in H. injection H as ->.
    reflexivity.
  - destruct l as [| y l]; [discriminate |]. cbn [nth_error] in H.
    cbn [firstn app]. f_equal. apply IH. exact H.
Qed.

Lemma app_inj_last {A} (l l' : list A) x y :
  l ++ [x] = l' ++ [y] -> x = y.
Proof. intros H. apply app_inj_tail in H. apply H. Qed.

(** The carriage-return trim, and the slice that ends [GetLine]: the
    result is [data[start:end1]] without its final byte when that byte
    is a carriage return, and [data[start:end1]] otherwise. *)
Lemma trim_and_slice_spec (bytes : list byte) start end1 :
  0 <= start <= end1 -> end1 <= len bytes -> len bytes <= Int64.max_int ->
  exists line,
    (end_ <-
       (if end1 >? start then
          b <- index bytes (U64.sub end1 1) ;;
          if Byte.eqb b carriage_return then Ok (U64.sub end1 1)
          else Ok end1
        else Ok end1) ;;
     slice bytes start end_) = Ok line /\
    ((slice bytes start end1 = Ok line /\
      forall l, line <> l ++ [carriage_return]) \/
     slice bytes start end1 = Ok (line ++ [carriage_return])) /\
    exists k, (k <= Z.to_nat (end1 - start))%nat /\
              line = firstn k (skipn (Z.to_nat start) bytes).
Proof.
  intros H1 H2 H3. rewrite (Z.gtb_ltb end1).
  rewrite (slice_in_range bytes start end1) by lia.
  destruct (Z.ltb_spec start end1) as [L | G].
  - assert (U : U64.sub end1 1 = end1 - 1).
    { unfold U64.sub. apply u64_small. lia. }
    rewrite U.
    destruct (index_in_range bytes (end1 - 1)) as (b & Hb & Hn); [lia |].
    rewrite Hb. cbn [bind].
    assert (Hsnoc : firstn (Z.to_nat (end1 - start))
                      (skipn (Z.to_nat start) bytes) =
                    firstn (Z.to_nat (end1 - 1 - start))
                      (skipn (Z.to_nat start) bytes) ++ [b]).
    { replace (Z.to_nat (end1 - start))
        with (S (Z.to_nat (end1 - 1 - start))) by lia.
      apply segment_snoc.
      replace (Z.to_nat start + Z.to_nat (end1 - 1 - start))%nat
        with (Z.to_nat (end1 - 1)) by lia.
      exact Hn. }
    destruct (Byte.eqb b carriage_return) eqn:E; cbn [bind];
      rewrite slice_in_range by lia; eexists; (split; [reflexivity |]).
    + apply eqb_carriage_return in E. subst b. split.
      * right. f_equal. exact Hsnoc.
      * exists (Z.to_nat (end1 - 1 - start)). split; [lia | reflexivity].
    + split.
      * left. split; [reflexivity |]. intros l Hl. rewrite Hsnoc in Hl.
        apply app_inj_last in Hl. subst b.
        change (Byte.eqb carriage_return carriage_return) with true in E.
        discriminate.
      * exists (Z.to_nat (end1 - start)). split; [lia | reflexivity].
  - cbn [bind]. rewrite slice_in_range by lia.
    assert (E : end1 = start) by lia. subst end1.
    rewrite Z.sub_diag. cbn [Z.to_nat firstn].
    eexists. split; [reflexivity |]. split.
    + left. split; [reflexivity |]. intros l Hl. destruct l; discriminate.
    + exists 0%nat. split; [lia | reflexivity].
Qed.

(** The start of line [n] and, before the last line, the start of the
    next line: what [GetLine] reads from the table. *)
Lemma GetLine_inner_steps idx n :
  well_formed idx -> 1 <= n < len (offsets idx) ->
  exists start next,
    index (offsets idx) (n - 1) = Ok start /\
    index (offsets idx) n = Ok next /\
    nth_error (offsets idx) (Z.to_nat (n - 1)) = Some start /\
    nth_error (offsets idx) (S (Z.to_nat (n - 1))) = Some next /\
    0 <= start < next /\ next < len (data idx) /\
    (index (data idx) (next - 1) = Ok newline ->
     GetLine idx n =
     (end_ <-
        (if next - 1 >? start then
           b <- index (data idx) (U64.sub (next - 1) 1) ;;
           if Byte.eqb b carriage_return then Ok (U64.sub (next - 1) 1)
           else Ok (next - 1)
         else Ok (next - 1)) ;;
      slice (data idx) start end_)).
Proof.
  intros (H0 & Hs & Hb & Hl & Hmax) Hn.
  destruct (index_in_range (offsets idx) (n - 1)) as (start & Hi & Hnth); [lia |].
  destruct (index_in_range (offsets idx) n) as (e & He & Hnth'); [lia |].
  exists start, e.
  assert (Bs : 0 <= start < len (data idx)).
  { rewrite Forall_forall in Hb. apply Hb. eapply nth_error_In. exact Hnth. }
  assert (Be : 0 <= e < len (data idx)).
  { rewrite Forall_forall in Hb. apply Hb. eapply nth_error_In. exact Hnth'. }
  assert (Lse : start < e).
  { eapply (sorted_nth_lt (offsets idx)); [exact Hs | | exact Hnth | exact Hnth'].
    lia. }
  replace (S (Z.to_nat (n - 1))) with (Z.to_nat n) by lia.
  split; [exact Hi |]. split; [exact He |]. split; [exact Hnth |].
  split; [exact Hnth' |]. split; [lia |]. split; [lia |].
  intros Hnl. unfold GetLine.
  destruct (Z.ltb_spec n 1); [lia |].
  rewrite (Z.gtb_ltb n). destruct (Z.ltb_spec (len (offsets idx)) n); [lia |].
  cbn [orb].
  assert (S1 : Int64.sub n 1 = n - 1).
  { apply wrap_small. range_consts. lia. }
  rewrite S1, Hi. cbn [bind].
  destruct (Z.ltb_spec n (len (offsets idx))); [| lia].
  rewrite He. cbn [bind].
  rewrite (Z.gtb_ltb e). destruct (Z.ltb_spec 0 e); [| lia].
  assert (U : U64.sub e 1 = e - 1).
  { unfold U64.sub. apply u64_small. lia. }
  rewrite U, Hnl. cbn [bind].
  change (Byte.eqb newline newline) with true. cbv iota. cbn [bind].
  reflexivity.
Qed.

(** Line [n] before the last, as a segment of the data. *)
Lemma inner_line_segment bytes r nm idx n :
  len bytes <= Int64.max_int ->
  buildOffsets (mkIndex bytes [] r nm) = (idx, None) ->
  1 <= n < LineCount idx ->
  exists start next line,
    nth_error (offsets idx) (Z.to_nat (n - 1)) = Some start /\
    nth_error (offsets idx) (Z.to_nat n) = Some next /\
    0 <= start < next /\ next < len bytes /\
    GetLine idx n = Ok line /\
    ~ In newline line /\
    ((firstn (Z.to_nat (next - start)) (skipn (Z.to_nat start) bytes) =
        line ++ [newline] /\
      forall l, line <> l ++ [carriage_return]) \/
     firstn (Z.to_nat (next - start)) (skipn (Z.to_nat start) bytes) =
       line ++ [carriage_return; newline]).
Proof.
  intros Hmax Hb Hn.
  destruct (buildOffsets_well_formed _ _ _ _ Hmax Hb) as (_ & Hidx & Hwf & _).
  assert (Hd : data idx = bytes) by (subst idx; reflexivity).
  assert (Ho : offsets idx = 0 :: scan (len bytes) 0 bytes [])
    by (subst idx; reflexivity).
  unfold LineCount in Hn.
  destruct (GetLine_inner_steps idx n Hwf Hn)
    as (start & next & Hi & He & Hn1 & Hn2 & Bs & Be & HG).
  rewrite Hd in *.
  assert (Hnext : nth_error bytes (Z.to_nat (next - 1)) = Some newline).
  { assert (Hin : In next (offsets idx)) by (eapply nth_error_In; exact Hn2).
    rewrite Ho in Hin. apply built_offsets_In in Hin; [| exact Hmax].
    destruct Hin as [-> | (_ & H)]; [lia | exact H]. }
  assert (Hnl : index bytes (next - 1) = Ok newline).
  { destruct (index_in_range bytes (next - 1)) as (b & Hb1 & Hb2); [lia |].
    rewrite Hb1. congruence. }
  specialize (HG Hnl).
  destruct (trim_and_slice_spec bytes start (next - 1))
    as (line & HL & Hshape & k & Hk & Hline); [lia | lia | exact Hmax |].
  exists start, next, line.
  split; [exact Hn1 |].
  split; [replace (Z.to_nat n) with (S (Z.to_nat (n - 1))) by lia; exact Hn2 |].
  split; [exact Bs |]. split; [exact Be |].
  split; [rewrite HG; exact HL |].
  assert (Hseg : firstn (Z.to_nat (next - start))
                   (skipn (Z.to_nat start) bytes) =
                 firstn (Z.to_nat (next - 1 - start))
                   (skipn (Z.to_nat start) bytes) ++ [newline]).
  { replace (Z.to_nat (next - start))
      with (S (Z.to_nat (next - 1 - start))) by lia.
    apply segment_snoc.
    replace (Z.to_nat start + Z.to_nat (next - 1 - start))%nat
      with (Z.to_nat (next - 1)) by lia.
    exact Hnext. }
  split.
  - intros Hin. rewrite Hline in Hin.
    apply In_segment in Hin as (j & Hj & Hnth).
    assert (Hp : In (start + Z.of_nat j + 1) (offsets idx)).
    { rewrite Ho. apply built_offsets_In; [exact Hmax |]. right.
      split; [lia |].
      replace (Z.to_nat (start + Z.of_nat j + 1 - 1))
        with (Z.to_nat start + j)%nat by lia.
      exact Hnth. }
    destruct Hwf as (_ & Hs & _).
    destruct (sorted_adjacent _ _ _ _ _ Hs Hn1 Hn2 Hp); lia.
  - rewrite (slice_in_range bytes start (next - 1)) in Hshape by lia.
    rewrite Hseg.
    destruct Hshape as [(E & Hno) | E].
    + left. split; [| exact Hno]. injection E as E. rewrite E. reflexivity.
    + right. injection E as E. rewrite E, <- app_assoc. reflexivity.
Qed.

Lemma index_of_nth {A} (s : list A) i a :
  0 <= i -> nth_error s (Z.to_nat i) = Some a -> index s i = Ok a.
Proof.
  intros Hi Hn.
  assert (Hlt : (Z.to_nat i < List.length s)%nat).
  { apply nth_error_Some. rewrite Hn. discriminate. }
  destruct (index_in_range s i) as (b & Hb1 & Hb2); [unfold len; lia |].
  rewrite Hb1. congruence.
Qed.

(** Property X16.  For every line [n] before the last, [GetLine n]
    returns the bytes from the line's start up to the next line's start
    without the terminating newline, and without the carriage return when
    the terminator is CR LF (only one carriage return is removed); the
    returned line never contains a newline byte. *)
Theorem GetLine_inner_line bytes r nm idx n :
  len bytes <= Int64.max_int ->
  buildOffsets (mkIndex bytes [] r nm) = (idx, None) ->
  1 <= n < LineCount idx ->
  exists start next line,
    index (offsets idx) (n - 1) = Ok start /\
    index (offsets idx) n = Ok next /\
    GetLine idx n = Ok line /\
    ~ In newline line /\
    ((slice bytes start next = Ok (line ++ [newline]) /\
      forall l, line <> l ++ [carriage_return]) \/
     slice bytes start next = Ok (line ++ [carriage_return; newline])).
Proof.
  intros Hmax Hb Hn.
  destruct (inner_line_segment _ _ _ _ _ Hmax Hb Hn)
    as (start & next & line & H1 & H2 & Bs & Be & HG & Hno & Hshape).
  exists start, next, line.
  split; [apply index_of_nth; [lia | exact H1] |].
  split; [apply index_of_nth; [lia | exact H2] |].
  split; [exact HG |]. split; [exact Hno |].
  rewrite (slice_in_range bytes start next) by lia.
  destruct Hshape as [(E & Hcr) | E]; [left; split; [| exact Hcr] | right];
    rewrite E; reflexivity.
Qed.

Lemma GetLine_inner_line_witness :
  let idx := fst (buildOffsets (mkIndex three_lines [] false "test"%string)) in
  len three_lines <= Int64.max_int /\
  buildOffsets (mkIndex three_lines [] false "test"%string) = (idx, None) /\
  1 <= 2 < LineCount idx /\
  exists start next line,
    index (offsets idx) (2 - 1) = Ok start /\
    index (offsets idx) 2 = Ok next /\
    GetLine idx 2 = Ok line /\
    ~ In newline line /\
    ((slice three_lines start next = Ok (line ++ [newline]) /\
      forall l, line <> l ++ [carriage_return]) \/
     slice three_lines start next = Ok (line ++ [carriage_return; newline])).
Proof.
  cbv zeta.
  assert (H1 : len three_lines <= Int64.max_int) by (vm_compute; discriminate).
  assert (H2 : buildOffsets (mkIndex three_lines [] false "test"%string) =
               (fst (buildOffsets (mkIndex three_lines [] false "test"%string)), None))
    by (vm_compute; reflexivity).
  assert (H3 : 1 <= 2 <
               LineCount (fst (buildOffsets
                                 (mkIndex three_lines [] false "test"%string))))
    by (vm_compute; split; [discriminate | reflexivity]).
  split; [exact H1 |]. split; [exact H2 |]. split; [exact H3 |].
  exact (GetLine_inner_line _ _ _ _ 2 H1 H2 H3).
Defined.

(** The last line, as a segment of the data. *)
Lemma last_line_segment bytes r nm idx :
  len bytes <= Int64.max_int ->
  buildOffsets (mkIndex bytes [] r nm) = (idx, None) ->
  exists start line,
    nth_error (offsets idx) (Z.to_nat (LineCount idx - 1)) = Some start /\
    1 <= LineCount idx /\ 0 <= start < len bytes /\
    GetLine idx (LineCount idx) = Ok line /\
    ~ In newline (removelast line) /\
    ((skipn (Z.to_nat start) bytes = line /\
      forall l, line <> l ++ [carriage_return]) \/
     skipn (Z.to_nat start) bytes = line ++ [carriage_return]).
Proof.
  intros Hmax Hb.
  destruct (buildOffsets_well_formed _ _ _ _ Hmax Hb) as (_ & Hidx & Hwf & Hc).
  assert (Hd : data idx = bytes) by (subst idx; reflexivity).
  assert (Ho : offsets idx = 0 :: scan (len bytes) 0 bytes [])
    by (subst idx; reflexivity).
  assert (Hcnt : 1 <= LineCount idx).
  { rewrite Hc. pose proof (count_newlines_bound (removelast bytes)). lia. }
  pose proof Hwf as (H0 & Hs & Hbd & Hl & _).
  unfold LineCount in *. rewrite Hd in *.
  destruct (index_in_range (offsets idx) (len (offsets idx) - 1))
    as (start & Hi & Hnth); [lia |].
  assert (Bs : 0 <= start < len bytes).
  { rewrite Forall_forall in Hbd. apply Hbd. eapply nth_error_In. exact Hnth. }
  destruct (trim_and_slice_spec bytes start (len bytes))
    as (line & HL & Hshape & k & Hk & Hline); [lia | lia | exact Hmax |].
  assert (Hall : firstn (Z.to_nat (len bytes - start))
                   (skipn (Z.to_nat start) bytes) =
                 skipn (Z.to_nat start) bytes).
  { apply firstn_all2. rewrite length_skipn. unfold len. lia. }
  rewrite (slice_in_range bytes start (len bytes)) in Hshape by lia.
  rewrite Hall in Hshape.
  exists start, line. split; [exact Hnth |]. split; [exact Hcnt |].
  split; [exact Bs |]. split; [| split].
  3: { destruct Hshape as [(E & Hcr) | E];
         [left; split; [| exact Hcr] | right]; congruence. }
  - unfold GetLine. rewrite Hd.
    destruct (Z.ltb_spec (len (offsets idx)) 1); [lia |].
    rewrite Z.gtb_ltb, Z.ltb_irrefl. cbn [orb].
    assert (S1 : Int64.sub (len (offsets idx)) 1 = len (offsets idx) - 1).
    { apply wrap_small. range_consts. lia. }
    rewrite S1, Hi. cbn [bind].
    rewrite u64_small by lia. cbn [bind]. exact HL.
  - intros Hin.
    assert (Hrl : removelast line =
                  firstn (Nat.pred k) (skipn (Z.to_nat start) bytes)).
    { rewrite Hline. destruct k as [| k]; [reflexivity |].
      cbn [Nat.pred]. apply removelast_firstn.
      rewrite length_skipn. unfold len in *. lia. }
    rewrite Hrl in Hin. apply In_segment in Hin as (j & Hj & Hn).
    assert (Hp : In (start + Z.of_nat j + 1) (offsets idx)).
    { rewrite Ho. apply built_offsets_In; [exact Hmax |]. right.
      split; [lia |].
      replace (Z.to_nat (start + Z.of_nat j + 1 - 1))
        with (Z.to_nat start + j)%nat by lia.
      exact Hn. }
    pose proof (sorted_last_max (offsets idx)
                  (Z.to_nat (len (offsets idx) - 1)) start _ Hs
                  ltac:(unfold len in *; lia) Hnth Hp).
    lia.
Qed.

(** Property X17.  For the last line, [GetLine] returns everything from
    the line's start to the end of the data, minus one final carriage
    return if the data ends with one.  A newline can only be the final
    byte of what is returned (the terminator of the file, which this
    branch does not trim). *)
Theorem GetLine_last_line bytes r nm idx :
  len bytes <= Int64.max_int ->
  buildOffsets (mkIndex bytes [] r nm) = (idx, None) ->
  exists start line,
    index (offsets idx) (LineCount idx - 1) = Ok start /\
    GetLine idx (LineCount idx) = Ok line /\
    ~ In newline (removelast line) /\
    ((slice bytes start (len bytes) = Ok line /\
      forall l, line <> l ++ [carriage_return]) \/
     slice bytes start (len bytes) = Ok (line ++ [carriage_return])).
Proof.
  intros Hmax Hb.
  destruct (last_line_segment _ _ _ _ Hmax Hb)
    as (start & line & H1 & Hc & Bs & HG & Hno & Hshape).
  exists start, line.
  split; [apply index_of_nth; [lia | exact H1] |].
  split; [exact HG |]. split; [exact Hno |].
  rewrite (slice_in_range bytes start (len bytes)) by lia.
  assert (Hall : firstn (Z.to_nat (len bytes - start))
                   (skipn (Z.to_nat start) bytes) =
                 skipn (Z.to_nat start) bytes).
  { apply firstn_all2. rewrite length_skipn. unfold len. lia. }
  rewrite Hall.
  destruct Hshape as [(E & Hcr) | E]; [left; split; [| exact Hcr] | right];
    rewrite E; reflexivity.
Qed.

Lemma GetLine_last_line_witness :
  let idx := fst (buildOffsets (mkIndex three_lines [] false "test"%string)) in
  len three_lines <= Int64.max_int /\
  buildOffsets (mkIndex three_lines [] false "test"%string) = (idx, None) /\
  exists start line,
    index (offsets idx) (LineCount idx - 1) = Ok start /\
    GetLine idx (LineCount idx) = Ok line /\
    ~ In newline (removelast line) /\
    ((slice three_lines start (len three_lines) = Ok line /\
      forall l, line <> l ++ [carriage_return]) \/
     slice three_lines start (len three_lines) =
       Ok (line ++ [carriage_return])).
Proof.
  cbv zeta.
  assert (H1 : len three_lines <= Int64.max_int) by (vm_compute; discriminate).
  assert (H2 : buildOffsets (mkIndex three_lines [] false "test"%string) =
               (fst (buildOffsets (mkIndex three_lines [] false "test"%string)), None))
    by (vm_compute; reflexivity).
  split; [exact H1 |]. split; [exact H2 |].
  exact (GetLine_last_line _ _ _ _ H1 H2).
Defined.




Lemma firstn_segment {A} (l : list A) a b :
  (a <= b)%nat ->
  firstn a l ++ firstn (b - a) (skipn a l) = firstn b l.
Proof.
  intros H. rewrite <- (firstn_skipn a (firstn b l)).
  rewrite firstn_firstn, Nat.min_l by exact H.
  rewrite skipn_firstn_comm. reflexivity.
Qed.

Lemma segment_In {A} (d : list A) lo k x :
  In x (firstn k (skipn lo d)) -> In x d.
Proof.
  intros H. apply In_segment in H as (j & _ & Hj).
  eapply nth_error_In. exact Hj.
Qed.

(** Property X18.  Round trip: when the data holds no carriage return,
    writing out lines [1 .. LineCount - 1] as [GetLine] returns them, each
    followed by a newline, and then the last line as returned, gives back
    the indexed data byte for byte. *)
Theorem lines_reassemble bytes r nm idx :
  len bytes <= Int64.max_int ->
  buildOffsets (mkIndex bytes [] r nm) = (idx, None) ->
  ~ In carriage_return bytes ->
  flat_map (fun k => match GetLine idx (Z.of_nat k) with
                     | Ok line => line ++ [newline]
                     | _ => []
                     end)
           (seq 1 (Z.to_nat (LineCount idx - 1)))
  ++ match GetLine idx (LineCount idx) with
     | Ok line => line
     | _ => []
     end
  = bytes.
Proof.
  intros Hmax Hb Hcr.
  set (f := fun k => match GetLine idx (Z.of_nat k) with
                     | Ok line => line ++ [newline]
                     | _ => []
                     end).
  destruct (buildOffsets_well_formed _ _ _ _ Hmax Hb) as (_ & _ & Hwf & _).
  destruct Hwf as (H0 & _).
  assert (A : forall m, (m < List.length (offsets idx))%nat ->
            exists o, nth_error (offsets idx) m = Some o /\ 0 <= o /\
                      flat_map f (seq 1 m) = firstn (Z.to_nat o) bytes).
  { induction m as [| m IH]; intros Hm.
    - exists 0. split; [exact H0 |]. split; [lia | reflexivity].
    - destruct IH as (o & Ho & Hpos & Hflat); [lia |].
      destruct (inner_line_segment bytes r nm idx (Z.of_nat (S m)) Hmax Hb)
        as (start & next & line & H1 & H2 & Bs & Be & HG & _ & Hshape).
      { unfold LineCount, len. lia. }
      replace (Z.to_nat (Z.of_nat (S m) - 1)) with m in H1 by lia.
      rewrite Nat2Z.id in H2.
      rewrite Ho in H1. injection H1 as ->.
      exists next. split; [exact H2 |]. split; [lia |].
      rewrite seq_S, flat_map_app, Hflat. cbn [flat_map Nat.add].
      rewrite app_nil_r. unfold f at 1. rewrite HG.
      destruct Hshape as [(E & _) | E].
      + rewrite <- E.
        replace (Z.to_nat (next - start))
          with (Z.to_nat next - Z.to_nat start)%nat by lia.
        apply firstn_segment. lia.
      + exfalso. apply Hcr.
        apply (segment_In bytes (Z.to_nat start) (Z.to_nat (next - start))).
        rewrite E. apply in_or_app. right. left. reflexivity. }
  destruct (last_line_segment bytes r nm idx Hmax Hb)
    as (start & line & H1 & Hc & Bs & HG & _ & Hshape).
  destruct (A (Z.to_nat (LineCount idx - 1))) as (o & Ho & _ & Hflat).
  { unfold LineCount, len in *. lia. }
  rewrite H1 in Ho. injection Ho as <-.
  fold f. rewrite Hflat, HG.
  destruct Hshape as [(E & _) | E].
  - rewrite <- E. apply firstn_skipn.
  - exfalso. apply Hcr.
    assert (Hin : In carriage_return (skipn (Z.to_nat start) bytes)).
    { rewrite E. apply in_or_app. right. left. reflexivity. }
    rewrite <- (firstn_skipn (Z.to_nat start) bytes).
    apply in_or_app. right. exact Hin.
Qed.

Lemma lines_reassemble_witness :
  let idx := fst (buildOffsets (mkIndex three_lines [] false "test"%string)) in
  len three_lines <= Int64.max_int /\
  buildOffsets (mkIndex three_lines [] false "test"%string) = (idx, None) /\
  ~ In carriage_return three_lines /\
  flat_map (fun k => match GetLine idx (Z.of_nat k) with
                     | Ok line => line ++ [newline]
                     | _ => []
                     end)
           (seq 1 (Z.to_nat (LineCount idx - 1)))
  ++ match GetLine idx (LineCount idx) with
     | Ok line => line
     | _ => []
     end
  = three_lines.
Proof.
  cbv zeta.
  assert (H1 : len three_lines <= Int64.max_int) by (vm_compute; discriminate).
  assert (H2 : buildOffsets (mkIndex three_lines [] false "test"%string) =
               (fst (buildOffsets (mkIndex three_lines [] false "test"%string)), None))
    by (vm_compute; reflexivity).
  assert (H3 : ~ In carriage_return three_lines).
  { vm_compute. intros H.
    repeat (destruct H as [H | H]; [discriminate H |]). exact H. }
  split; [exact H1 |]. split; [exact H2 |]. split; [exact H3 |].
  exact (lines_reassemble _ _ _ _ H1 H2 H3).
Defined.

Lemma count_newlines_snoc d b :
  count_newlines (d ++ [b]) =
  count_newlines d + (if Byte.eqb b newline then 1 else 0).
Proof.
  unfold count_newlines. rewrite count_occ_app. cbn [count_occ].
  destruct (Byte.byte_eq_dec b newline) as [-> | Hne].
  - change (Byte.eqb newline newline) with true. lia.
  - destruct (Byte.eqb b newline) eqn:E; [| lia].
    apply Byte.byte_dec_bl in E. contradiction.
Qed.

(** Property X19.  Appending one newline to an indexed file adds a line
    only if the file already ended with a newline: a single final
    newline terminates the last line rather than opening an empty one.
    The file with the newline appended has one line more than the
    original has newlines. *)
Theorem LineCount_trailing_newline bytes r nm idx idx' :
  len (bytes ++ [newline]) <= Int64.max_int ->
  buildOffsets (mkIndex bytes [] r nm) = (idx, None) ->
  buildOffsets (mkIndex (bytes ++ [newline]) [] r nm) = (idx', None) ->
  LineCount idx' =
    LineCount idx + (if Byte.eqb (last bytes x00) newline then 1 else 0) /\
  LineCount idx' = 1 + count_newlines bytes.
Proof.
  intros Hmax Hb Hb'.
  assert (Hmax0 : len bytes <= Int64.max_int).
  { rewrite len_app in Hmax. pose proof (len_nonneg [newline]). lia. }
  destruct (buildOffsets_well_formed _ _ _ _ Hmax0 Hb) as (Hne & _ & _ & Hc).
  destruct (buildOffsets_well_formed _ _ _ _ Hmax Hb') as (_ & _ & _ & Hc').
  rewrite removelast_last in Hc'. rewrite Hc', Hc.
  split; [| reflexivity].
  destruct (exists_last Hne) as (d & b & ->).
  rewrite removelast_last, last_last, count_newlines_snoc. lia.
Qed.

Lemma LineCount_trailing_newline_witness :
  let idx := fst (buildOffsets (mkIndex two_lines [] false "test"%string)) in
  let idx' :=
    fst (buildOffsets (mkIndex (two_lines ++ [newline]) [] false "test"%string))
  in
  len (two_lines ++ [newline]) <= Int64.max_int /\
  buildOffsets (mkIndex two_lines [] false "test"%string) = (idx, None) /\
  buildOffsets (mkIndex (two_lines ++ [newline]) [] false "test"%string)
    = (idx', None) /\
  LineCount idx' = 1 + count_newlines two_lines.
Proof.
  cbv zeta.
  assert (H1 : len (two_lines ++ [newline]) <= Int64.max_int)
    by (vm_compute; discriminate).
  assert (H2 : buildOffsets (mkIndex two_lines [] false "test"%string) =
               (fst (buildOffsets (mkIndex two_lines [] false "test"%string)), None))
    by (vm_compute; reflexivity).
  assert (H3 : buildOffsets
                 (mkIndex (two_lines ++ [newline]) [] false "test"%string) =
               (fst (buildOffsets
                       (mkIndex (two_lines ++ [newline]) [] false
                          "test"%string)), None))
    by (vm_compute; reflexivity).
  split; [exact H1 |]. split; [exact H2 |]. split; [exact H3 |].
  exact (proj2 (LineCount_trailing_newline _ _ _ _ _ H1 H2 H3)).
Defined.




Lemma scan_app n d : forall i e,
  0 <= i -> i + len d + len e <= Int64.max_int ->
  scan n i (d ++ e) [] = scan n i d [] ++ scan n (i + len d) e [].
Proof.
  induction d as [| b d IH]; intros i e H0 H1.
  - cbn [app scan]. unfold len. cbn [List.length]. rewrite Z.add_0_r.
    reflexivity.
  - rewrite len_cons in H1. pose proof (len_nonneg d). pose proof (len_nonneg e).
    cbn [app]. rewrite !scan_cons by lia. rewrite IH by lia.
    rewrite len_cons, <- app_assoc. do 3 f_equal. lia.
Qed.

(** Scanning the same bytes as part of a longer file records the same
    positions, and possibly one more (the position after a final
    newline). *)
Lemma scan_longer n n' d : forall i,
  0 <= i -> i + len d = n -> n <= n' -> n' <= Int64.max_int ->
  exists extra, scan n' i d [] = scan n i d [] ++ extra.
Proof.
  induction d as [| b d IH]; intros i H0 H1 H2 H3.
  - exists []. reflexivity.
  - rewrite len_cons in H1. pose proof (len_nonneg d) as Hd.
    rewrite !scan_cons by lia.
    destruct d as [| b' d'].
    + cbn [scan]. rewrite !app_nil_r.
      unfold len in H1. cbn [List.length] in H1.
      destruct (Z.ltb_spec (i + 1) n); [lia |]. rewrite andb_false_r.
      eexists. reflexivity.
    + rewrite len_cons in H1. pose proof (len_nonneg d').
      destruct (IH (i + 1)) as (extra & E); try lia.
      { rewrite len_cons. lia. }
      rewrite E. exists extra.
      destruct (Z.ltb_spec (i + 1) n); [| lia].
      destruct (Z.ltb_spec (i + 1) n'); [| lia].
      rewrite app_assoc. reflexivity.
Qed.

Lemma built_offsets_prefix d e :
  len (d ++ e) <= Int64.max_int ->
  exists extra,
    0 :: scan (len (d ++ e)) 0 (d ++ e) [] =
    (0 :: scan (len d) 0 d []) ++ extra.
Proof.
  intros Hmax. rewrite len_app in *.
  pose proof (len_nonneg d). pose proof (len_nonneg e).
  rewrite scan_app by lia.
  destruct (scan_longer (len d) (len d + len e) d 0) as (extra & E); try lia.
  rewrite E. eexists. cbn [app]. rewrite <- app_assoc. reflexivity.
Qed.

Lemma index_app_l {A} (d e : list A) i :
  0 <= i < len d -> index (d ++ e) i = index d i.
Proof.
  intros H. unfold index. rewrite len_app. pose proof (len_nonneg e).
  destruct (Z.ltb_spec i 0); [lia |].
  rewrite !(Z.geb_leb i).
  destruct (Z.leb_spec (len d + len e) i); [lia |].
  destruct (Z.leb_spec (len d) i); [lia |]. cbn [orb].
  rewrite nth_error_app1 by (unfold len in H; lia). reflexivity.
Qed.

Lemma slice_app_l {A} (d e : list A) lo hi :
  0 <= lo <= hi -> hi <= len d -> slice (d ++ e) lo hi = slice d lo hi.
Proof.
  intros H1 H2. pose proof (len_nonneg e).
  rewrite !slice_in_range by (rewrite ?len_app; lia). f_equal.
  rewrite skipn_app, firstn_app, length_skipn.
  replace (Z.to_nat (hi - lo) - (List.length d - Z.to_nat lo))%nat with 0%nat
    by (unfold len in H2; lia).
  cbn [firstn]. rewrite app_nil_r. reflexivity.
Qed.

(** Property X20.  Appending bytes to an indexed file never removes a
    line and never changes a line before the last one: for every [n]
    below the old line count, [GetLine n] on the index of the longer
    data equals [GetLine n] on the old index. *)
Theorem appending_keeps_earlier_lines bytes more r nm idx idx' n :
  len (bytes ++ more) <= Int64.max_int ->
  buildOffsets (mkIndex bytes [] r nm) = (idx, None) ->
  buildOffsets (mkIndex (bytes ++ more) [] r nm) = (idx', None) ->
  LineCount idx <= LineCount idx' /\
  (1 <= n < LineCount idx -> GetLine idx' n = GetLine idx n).
Proof.
  intros Hmax' Hb Hb'.
  pose proof (len_nonneg more) as Hm.
  assert (Hmax : len bytes <= Int64.max_int) by (rewrite len_app in Hmax'; lia).
  destruct (buildOffsets_well_formed _ _ _ _ Hmax Hb) as (_ & Hidx & Hwf & _).
  destruct (buildOffsets_well_formed _ _ _ _ Hmax' Hb')
    as (_ & Hidx' & Hwf' & _).
  assert (Hd : data idx = bytes) by (subst idx; reflexivity).
  assert (Ho : offsets idx = 0 :: scan (len bytes) 0 bytes [])
    by (subst idx; reflexivity).
  assert (Hd' : data idx' = bytes ++ more) by (subst idx'; reflexivity).
  assert (Ho' : offsets idx' =
                0 :: scan (len (bytes ++ more)) 0 (bytes ++ more) [])
    by (subst idx'; reflexivity).
  destruct (built_offsets_prefix bytes more Hmax') as (extra & Hpre).
  rewrite <- Ho', <- Ho in Hpre.
  assert (Hlen : len (offsets idx') = len (offsets idx) + len extra)
    by (rewrite Hpre; apply len_app).
  pose proof (len_nonneg extra) as Hx.
  unfold LineCount. split; [lia |]. intros Hn.
  destruct (GetLine_inner_steps idx n Hwf Hn)
    as (start & next & _ & _ & Hn1 & Hn2 & Bs & Be & HG).
  destruct (GetLine_inner_steps idx' n Hwf' ltac:(lia))
    as (start' & next' & _ & _ & Hn1' & Hn2' & _ & _ & HG').
  rewrite Hpre in Hn1', Hn2'.
  rewrite nth_error_app1 in Hn1' by (unfold len in Hn; lia).
  rewrite nth_error_app1 in Hn2' by (unfold len in Hn; lia).
  rewrite Hn1 in Hn1'. injection Hn1' as <-.
  rewrite Hn2 in Hn2'. injection Hn2' as <-.
  rewrite Hd in *. rewrite Hd' in *.
  assert (Hnl : index bytes (next - 1) = Ok newline).
  { assert (Hin : In next (offsets idx)) by (eapply nth_error_In; exact Hn2).
    rewrite Ho in Hin. apply built_offsets_In in Hin; [| exact Hmax].
    destruct Hin as [-> | (_ & H)]; [lia |].
    apply index_of_nth; [lia | exact H]. }
  rewrite HG by exact Hnl.
  rewrite HG' by (rewrite index_app_l by lia; exact Hnl).
  rewrite (Z.gtb_ltb (next - 1)).
  destruct (Z.ltb_spec start (next - 1)) as [L | G].
  - assert (U : U64.sub (next - 1) 1 = next - 1 - 1).
    { unfold U64.sub. apply u64_small. lia. }
    rewrite U, index_app_l by lia.
    destruct (index bytes (next - 1 - 1)) as [b | err |]; cbn [bind];
      [| reflexivity | reflexivity].
    destruct (Byte.eqb b carriage_return); cbn [bind];
      apply slice_app_l; lia.
  - cbn [bind]. apply slice_app_l; lia.
Qed.

Lemma appending_keeps_earlier_lines_witness :
  let idx := fst (buildOffsets (mkIndex two_lines [] false "test"%string)) in
  let idx' :=
    fst (buildOffsets (mkIndex (two_lines ++ two_lines) [] false "test"%string))
  in
  len (two_lines ++ two_lines) <= Int64.max_int /\
  buildOffsets (mkIndex two_lines [] false "test"%string) = (idx, None) /\
  buildOffsets (mkIndex (two_lines ++ two_lines) [] false "test"%string)
    = (idx', None) /\
  1 <= 1 < LineCount idx /\
  GetLine idx' 1 = GetLine idx 1.
Proof.
  cbv zeta.
  assert (H1 : len (two_lines ++ two_lines) <= Int64.max_int)
    by (vm_compute; discriminate).
  assert (H2 : buildOffsets (mkIndex two_lines [] false "test"%string) =
               (fst (buildOffsets (mkIndex two_lines [] false "test"%string)), None))
    by (vm_compute; reflexivity).
  assert (H3 : buildOffsets
                 (mkIndex (two_lines ++ two_lines) [] false "test"%string) =
               (fst (buildOffsets
                       (mkIndex (two_lines ++ two_lines) [] false
                          "test"%string)), None))
    by (vm_compute; reflexivity).
  assert (H4 : 1 <= 1 <
               LineCount (fst (buildOffsets
                                 (mkIndex two_lines [] false "test"%string))))
    by (vm_compute; split; [discriminate | reflexivity]).
  split; [exact H1 |]. split; [exact H2 |]. split; [exact H3 |].
  split; [exact H4 |].
  exact (proj2 (appending_keeps_earlier_lines _ _ _ _ _ _ 1 H1 H2 H3) H4).
Defined.



(** Property X21.  [Open], [OpenFile] and [OpenReader] given the same
    non-empty bytes all succeed and build the same offset table over the
    same data, so [GetLine] answers alike; the indexes differ only in
    the name and in the attached reader: [Close] forwards the reader's
    answer after [Open] and returns no error, having no reader, after
    [OpenReader] or [OpenFile]. *)
Theorem open_variants_agree bytes path nm mmap_fs file_fs :
  bytes <> [] -> len bytes <= Int64.max_int ->
  mmap_fs path = MmapData bytes ->
  file_fs path = FileOpened (ReadData bytes) ->
  exists offs,
    Open mmap_fs path = (Some (mkIndex bytes offs true path), None) /\
    OpenFile file_fs path = (Some (mkIndex bytes offs false path), None) /\
    OpenReader (ReadData bytes) nm =
      (Some (mkIndex bytes offs false nm), None) /\
    (forall n, GetLine (mkIndex bytes offs true path) n =
               GetLine (mkIndex bytes offs false nm) n) /\
    (forall c, Close c (mkIndex bytes offs true path) = c /\
               Close c (mkIndex bytes offs false nm) = None).
Proof.
  intros Hne Hmax Hm Hf.
  exists (0 :: scan (len bytes) 0 bytes []).
  unfold Open, OpenFile, OpenReader. rewrite Hm, Hf.
  rewrite !buildOffsets_built by assumption.
  repeat split; reflexivity.
Qed.

Lemma open_variants_agree_witness :
  two_lines <> [] /\ len two_lines <= Int64.max_int /\
  exists offs,
    Open (fun _ => MmapData two_lines) "a.log"%string =
      (Some (mkIndex two_lines offs true "a.log"%string), None) /\
    OpenFile (fun _ => FileOpened (ReadData two_lines)) "a.log"%string =
      (Some (mkIndex two_lines offs false "a.log"%string), None).
Proof.
  assert (H1 : two_lines <> []) by (vm_compute; discriminate).
  assert (H2 : len two_lines <= Int64.max_int) by (vm_compute; discriminate).
  split; [exact H1 |]. split; [exact H2 |].
  destruct (open_variants_agree two_lines "a.log"%string "stdin"%string
              (fun _ => MmapData two_lines)
              (fun _ => FileOpened (ReadData two_lines))
              H1 H2 eq_refl eq_refl) as (offs & A & B & _).
  exists offs. split; [exact A | exact B].
Defined.

(* ================================================================= *)
(** ** Proofs: choosing the log source *)
Lemma buildOffsets_shape idx :
  (exists idx', buildOffsets idx = (idx', None)) \/
  buildOffsets idx = (idx, Some ErrEmptyFile).
Proof.
  unfold buildOffsets. destruct (len (data idx) =? 0).
  - right. reflexivity.
  - left. eexists. reflexivity.
Qed.

(** The three constructors return an index or an error, never both and
    never neither. *)
Lemma OpenReader_shape r nm :
  (exists idx, OpenReader r nm = (Some idx, None)) \/
  (exists e, OpenReader r nm = (None, Some e)).
Proof.
  unfold OpenReader. destruct r as [e | bytes].
  - right. eexists. reflexivity.
  - destruct (buildOffsets_shape (mkIndex bytes [] false nm)) as [(i & ->) | ->].
    + left. eexists. reflexivity.
    + right. eexists. reflexivity.
Qed.

Lemma Open_shape fs path :
  (exists idx, Open fs path = (Some idx, None)) \/
  (exists e, Open fs path = (None, Some e)).
Proof.
  unfold Open. destruct (fs path) as [e | e | bytes].
  - right. eexists. reflexivity.
  - right. eexists. reflexivity.
  - destruct (buildOffsets_shape (mkIndex bytes [] true path)) as [(i & ->) | ->].
    + left. eexists. reflexivity.
    + right. eexists. reflexivity.
Qed.

Lemma OpenFile_shape fs path :
  (exists idx, OpenFile fs path = (Some idx, None)) \/
  (exists e, OpenFile fs path = (None, Some e)).
Proof.
  unfold OpenFile. destruct (fs path) as [e | r].
  - right. eexists. reflexivity.
  - apply OpenReader_shape.
Qed.

Lemma pass_shape r :
  (exists idx, r = (Some idx, None)) \/ (exists e, r = (None, Some e)) ->
  (exists idx, Main.pass r = (Some idx, None)) \/
  (exists e, Main.pass r = (None, Some (Main.IndexError e))).
Proof.
  intros [(i & ->) | (e & ->)]; [left | right]; eexists; reflexivity.
Qed.

(** Property X22.  [openSource] returns an index or an error, never
    both and never neither, whatever the operating system answers.  The
    error is "no input provided" exactly when no file path was given and
    [isStdinEmpty] holds.  When a path is given, an index is returned
    only for a path that [os.Stat] reports as a non-directory, and the
    index carries that path as its name. *)
Theorem openSource_index_or_error sys config :
  ((exists idx, Main.openSource sys config = (Some idx, None)) \/
   (exists e, Main.openSource sys config = (None, Some e))) /\
  (snd (Main.openSource sys config) = Some Main.NoInput <->
   Main.FilePath config = ""%string /\ Main.isStdinEmpty sys = true) /\
  (Main.FilePath config <> ""%string ->
   forall idx, Main.openSource sys config = (Some idx, None) ->
   Main.stat sys (Main.FilePath config) = Main.StatInfo false /\
   name idx = Main.FilePath config).
Proof.
  unfold Main.openSource.
  destruct (String.eqb_spec (Main.FilePath config) "") as [E | N].
  - destruct (Main.isStdinEmpty sys) eqn:S.
    + split; [right; eexists; reflexivity |]. split.
      * cbn [snd]. split; [intros _; split; [exact E | reflexivity] | reflexivity].
      * intros C. contradiction.
    + destruct (pass_shape _ (OpenReader_shape (Main.stdin_read sys) "stdin"))
        as [(i & ->) | (e & ->)].
      * split; [left; eexists; reflexivity |]. split.
        -- cbn [snd]. split; [discriminate | intros [_ C]; discriminate].
        -- intros C. contradiction.
      * split; [right; eexists; reflexivity |]. split.
        -- cbn [snd]. split; [discriminate | intros [_ C]; discriminate].
        -- intros C. contradiction.
  - destruct (Main.stat sys (Main.FilePath config)) as [| e | [|]].
    + split; [right; eexists; reflexivity |]. split.
      * cbn [snd]. split; [discriminate | intros [C _]; contradiction].
      * intros _ idx C. discriminate.
    + split; [right; eexists; reflexivity |]. split.
      * cbn [snd]. split; [discriminate | intros [C _]; contradiction].
      * intros _ idx C. discriminate.
    + split; [right; eexists; reflexivity |]. split.
      * cbn [snd]. split; [discriminate | intros [C _]; contradiction].
      * intros _ idx C. discriminate.
    + assert (NameO : forall idx,
                Open (Main.mmap_fs sys) (Main.FilePath config) = (Some idx, None) ->
                name idx = Main.FilePath config).
      { intros idx. unfold Open.
        destruct (Main.mmap_fs sys (Main.FilePath config)) as [e | e | bytes];
          try discriminate.
        unfold buildOffsets. cbn [data].
        destruct (len bytes =? 0); [discriminate |].
        intros H. injection H as <-. reflexivity. }
      assert (NameF : forall idx,
                OpenFile (Main.file_fs sys) (Main.FilePath config) = (Some idx, None) ->
                name idx = Main.FilePath config).
      { intros idx. unfold OpenFile, OpenReader.
        destruct (Main.file_fs sys (Main.FilePath config)) as [e | [e | bytes]];
          try discriminate.
        unfold buildOffsets. cbn [data].
        destruct (len bytes =? 0); [discriminate |].
        intros H. injection H as <-. reflexivity. }
      destruct (Open_shape (Main.mmap_fs sys) (Main.FilePath config))
        as [(i & Ho) | (e & Ho)]; rewrite Ho.
      * split; [left; eexists; reflexivity |]. split.
        -- cbn [snd]. split; [discriminate | intros [C _]; contradiction].
        -- intros _ idx C. injection C as <-. split; [reflexivity |].
           apply NameO. exact Ho.
      * destruct (OpenFile_shape (Main.file_fs sys) (Main.FilePath config))
          as [(i & Hf) | (e' & Hf)]; rewrite Hf; cbn [Main.pass fst snd option_map].
        -- split; [left; eexists; reflexivity |]. split.
           ++ split; [discriminate | intros [C _]; contradiction].
           ++ intros _ idx C. injection C as <-. split; [reflexivity |].
              apply NameF. exact Hf.
        -- split; [right; eexists; reflexivity |]. split.
           ++ split; [discriminate | intros [C _]; contradiction].
           ++ intros _ idx C. discriminate.
Qed.

Lemma openSource_index_or_error_witness :
  let sys := Main.mkSystem None (ReadFails "closed"%string)
               (fun _ => Main.StatInfo false)
               (fun _ => MmapData two_lines)
               (fun _ => FileOpened (ReadData two_lines)) in
  let config := Main.mkConfig false "app.log"%string in
  exists idx,
    Main.openSource sys config = (Some idx, None) /\
    name idx = Main.FilePath config.
Proof.
  cbv zeta.
  assert (H1 : Main.FilePath (Main.mkConfig false "app.log"%string) <> ""%string)
    by (vm_compute; discriminate).
  eexists. split; [vm_compute; reflexivity |].
  refine (proj2 (proj2 (proj2 (openSource_index_or_error
            (Main.mkSystem None (ReadFails "closed"%string)
               (fun _ => Main.StatInfo false)
               (fun _ => MmapData two_lines)
               (fun _ => FileOpened (ReadData two_lines)))
            (Main.mkConfig false "app.log"%string))) H1 _ _)).
  vm_compute. reflexivity.
Defined.

(** Property X23.  For a path that [os.Stat] reports as a regular file
    whose bytes the plain read obtains, [openSource] does not depend on
    memory mapping: whether [mmap] delivers the same bytes or fails, a
    non-empty file yields an index over those bytes with the offset
    table [OpenReader] would build (so the same line count), and an
    empty file yields [ErrEmptyFile]. *)
Theorem openSource_falls_back_to_plain_read sys config bytes :
  Main.FilePath config <> ""%string ->
  Main.stat sys (Main.FilePath config) = Main.StatInfo false ->
  Main.file_fs sys (Main.FilePath config) = FileOpened (ReadData bytes) ->
  (Main.mmap_fs sys (Main.FilePath config) = MmapData bytes \/
   exists e, Main.mmap_fs sys (Main.FilePath config) = MmapOpenFails e \/
             Main.mmap_fs sys (Main.FilePath config) = MmapReadFails e) ->
  len bytes <= Int64.max_int ->
  (bytes <> [] ->
   exists offs r,
     Main.openSource sys config =
       (Some (mkIndex bytes offs r (Main.FilePath config)), None) /\
     OpenReader (ReadData bytes) (Main.FilePath config) =
       (Some (mkIndex bytes offs false (Main.FilePath config)), None) /\
     LineCount (mkIndex bytes offs r (Main.FilePath config)) =
       1 + count_newlines (removelast bytes)) /\
  (bytes = [] ->
   Main.openSource sys config =
     (None, Some (Main.IndexError ErrEmptyFile))).
Proof.
  intros N Hstat Hfile Hmmap Hmax. unfold Main.openSource.
  destruct (String.eqb_spec (Main.FilePath config) "") as [E | _];
    [contradiction |].
  rewrite Hstat. split.
  - intros Hne.
    pose proof (buildOffsets_built bytes false (Main.FilePath config) Hne Hmax)
      as Bf.
    pose proof (buildOffsets_built bytes true (Main.FilePath config) Hne Hmax)
      as Bt.
    assert (Hc : len (0 :: scan (len bytes) 0 bytes []) =
                 1 + count_newlines (removelast bytes)).
    { rewrite len_cons, scan_count by lia. lia. }
    exists (0 :: scan (len bytes) 0 bytes []).
    destruct Hmmap as [Hm | (e & [Hm | Hm])].
    + exists true. unfold Open, OpenReader. rewrite Hm, Bt, Bf.
      split; [reflexivity |]. split; [reflexivity | exact Hc].
    + exists false. unfold Open, OpenFile, OpenReader. rewrite Hm, Hfile, Bf.
      split; [reflexivity |]. split; [reflexivity | exact Hc].
    + exists false. unfold Open, OpenFile, OpenReader. rewrite Hm, Hfile, Bf.
      split; [reflexivity |]. split; [reflexivity | exact Hc].
  - intros ->. unfold Open, OpenFile, OpenReader. rewrite Hfile.
    destruct Hmmap as [Hm | (e & [Hm | Hm])]; rewrite Hm; reflexivity.
Qed.

Lemma openSource_falls_back_to_plain_read_witness :
  let sys := Main.mkSystem None (ReadFails "closed"%string)
               (fun _ => Main.StatInfo false)
               (fun _ => MmapOpenFails "no mmap"%string)
               (fun _ => FileOpened (ReadData two_lines)) in
  let config := Main.mkConfig false "app.log"%string in
  Main.FilePath config <> ""%string /\
  len two_lines <= Int64.max_int /\
  two_lines <> [] /\
  exists offs r,
    Main.openSource sys config =
      (Some (mkIndex two_lines offs r (Main.FilePath config)), None).
Proof.
  cbv zeta.
  assert (H1 : Main.FilePath (Main.mkConfig false "app.log"%string) <> ""%string)
    by (vm_compute; discriminate).
  assert (H2 : len two_lines <= Int64.max_int) by (vm_compute; discriminate).
  assert (H3 : two_lines <> []) by (vm_compute; discriminate).
  split; [exact H1 |]. split; [exact H2 |]. split; [exact H3 |].
  destruct (proj1 (openSource_falls_back_to_plain_read
              (Main.mkSystem None (ReadFails "closed"%string)
                 (fun _ => Main.StatInfo false)
                 (fun _ => MmapOpenFails "no mmap"%string)
                 (fun _ => FileOpened (ReadData two_lines)))
              (Main.mkConfig false "app.log"%string) two_lines
              H1 eq_refl eq_refl
              (or_intror (ex_intro _ "no mmap"%string (or_introl eq_refl)))
              H2) H3) as (offs & r & A & _).
  exists offs, r. exact A.
Defined.

(* ================================================================= *)
(** ** Proofs: table columns *)
Lemma length_append (s t : string) :
  String.length (s ++ t) = (String.length s + String.length t)%nat.
Proof.
  induction s as [| c s IH]; cbn [append String.length]; [reflexivity |].
  rewrite IH. reflexivity.
Qed.

Lemma length_prefix (s : string) : forall n,
  (n <= String.length s)%nat -> String.length (substring 0 n s) = n.
Proof.
  induction s as [| c s IH]; intros n H.
  - cbn [String.length] in H. assert (n = 0%nat) by lia. subst n. reflexivity.
  - destruct n as [| n]; [reflexivity |].
    cbn [substring String.length]. rewrite IH; [reflexivity |].
    cbn [String.length] in H. lia.
Qed.

(** The fallback chains of [Parse]: each column is the first non-empty
    answer among its keys. *)
Lemma fallback2 a b c :
  (let x := a in
   let x := if String.eqb x "" then b else x in
   if String.eqb x "" then c else x) = Parser.first_nonempty [a; b; c] /\
  (let x := a in if String.eqb x "" then b else x) =
    Parser.first_nonempty [a; b].
Proof.
  cbv zeta. cbn [Parser.first_nonempty].
  destruct (String.eqb_spec a "") as [-> | Na].
  - destruct (String.eqb_spec b "") as [-> | Nb].
    + destruct (String.eqb_spec c ""); split; try reflexivity; congruence.
    + split; reflexivity.
  - destruct (String.eqb_spec a "") as [E | _]; [contradiction |].
    split; reflexivity.
Qed.

Lemma fallback3 a b c d :
  (let x := a in
   let x := if String.eqb x "" then b else x in
   let x := if String.eqb x "" then c else x in
   if String.eqb x "" then d else x) = Parser.first_nonempty [a; b; c; d].
Proof.
  cbv zeta. pose proof (proj1 (fallback2 a b c)) as E. cbv zeta in E.
  rewrite E. cbn [Parser.first_nonempty].
  destruct (String.eqb_spec a "") as [-> | Na].
  - destruct (String.eqb_spec b "") as [-> | Nb].
    + destruct (String.eqb_spec c "") as [-> | Nc].
      * cbn. destruct (String.eqb_spec d ""); congruence.
      * destruct (String.eqb_spec c ""); [contradiction | reflexivity].
    + destruct (String.eqb_spec b ""); [contradiction | reflexivity].
  - destruct (String.eqb_spec a ""); [contradiction | reflexivity].
Qed.

Lemma fallback4 a b c d e :
  (let x := a in
   let x := if String.eqb x "" then b else x in
   let x := if String.eqb x "" then c else x in
   let x := if String.eqb x "" then d else x in
   if String.eqb x "" then e else x) = Parser.first_nonempty [a; b; c; d; e].
Proof.
  cbv zeta. pose proof (fallback3 a b c d) as E. cbv zeta in E.
  rewrite E.
  change (Parser.first_nonempty [a; b; c; d; e])
    with (if String.eqb a "" then
            if String.eqb b "" then
              if String.eqb c "" then
                if String.eqb d "" then
                  if String.eqb e "" then ""%string else e
                else d
              else c
            else b
          else a).
  cbn [Parser.first_nonempty].
  destruct (String.eqb_spec a "") as [-> | Na];
    [| destruct (String.eqb_spec a ""); [contradiction | reflexivity]].
  destruct (String.eqb_spec b "") as [-> | Nb];
    [| destruct (String.eqb_spec b ""); [contradiction | reflexivity]].
  destruct (String.eqb_spec c "") as [-> | Nc];
    [| destruct (String.eqb_spec c ""); [contradiction | reflexivity]].
  destruct (String.eqb_spec d "") as [-> | Nd];
    [| destruct (String.eqb_spec d ""); [contradiction | reflexivity]].
  cbn. destruct (String.eqb_spec e ""); congruence.
Qed.

(** Property X24.  [Parse] fails with "empty line" exactly on an empty
    line and with "invalid JSON" exactly on a non-empty line gjson does
    not accept.  Otherwise the entry keeps the row and the raw bytes;
    each of time, level and message is the first non-empty answer among
    its keys, in the order the code tries them; and the message column is
    never longer than 100 bytes: a message of at most 100 bytes is kept
    whole, a longer one becomes its first 97 bytes followed by three
    dots, 100 bytes in all. *)
Theorem Parse_columns g raw row :
  (snd (Parser.Parse g raw row) = Some Parser.EmptyLine <-> raw = []) /\
  (snd (Parser.Parse g raw row) = Some Parser.InvalidJSON <->
   raw <> [] /\ Parser.Exists g raw = false) /\
  (raw <> [] -> Parser.Exists g raw = true ->
   exists e,
     Parser.Parse g raw row = (Some e, None) /\
     Parser.Row e = row /\ Parser.Raw e = raw /\
     Parser.Time e =
       Parser.first_nonempty
         (map (Parser.Get g raw)
              ["time"; "Time"; "timestamp"; "Timestamp"; "ts"]%string) /\
     Parser.Level e =
       Parser.first_nonempty
         (map (Parser.Get g raw)
              ["level"; "Level"; "severity"; "Severity"]%string) /\
     let m := Parser.first_nonempty
                (map (Parser.Get g raw)
                     ["msg"; "Msg"; "message"; "Message"]%string) in
     Parser.slen (Parser.Msg e) <= 100 /\
     (Parser.slen m <= 100 -> Parser.Msg e = m) /\
     (100 < Parser.slen m ->
      Parser.Msg e = (substring 0 97 m ++ "...")%string /\
      Parser.slen (Parser.Msg e) = 100)).
Proof.
  assert (Hlen : (Index.len raw =? 0) = true <-> raw = []).
  { rewrite Z.eqb_eq. unfold Index.len. destruct raw; cbn [List.length].
    - split; reflexivity.
    - split; [lia | discriminate]. }
  unfold Parser.Parse.
  destruct (Index.len raw =? 0) eqn:L.
  - assert (E : raw = []) by (apply Hlen; reflexivity).
    split; [split; [intros _; exact E | reflexivity] |].
    split; [split; [discriminate | intros [C _]; contradiction] |].
    intros C. contradiction.
  - assert (N : raw <> []).
    { intros E. apply Hlen in E. discriminate. }
    destruct (Parser.Exists g raw) eqn:X; cbn [negb].
    + split; [split; [discriminate | intros C; contradiction] |].
      split; [split; [discriminate | intros [_ C]; discriminate] |].
      intros _ _. eexists. split; [reflexivity |].
      cbn [Parser.Row Parser.Raw Parser.Time Parser.Level Parser.Msg map].
      split; [reflexivity |]. split; [reflexivity |].
      split; [apply fallback4 |]. split; [apply fallback3 |].
      pose proof (fallback3 (Parser.Get g raw "msg") (Parser.Get g raw "Msg")
                    (Parser.Get g raw "message") (Parser.Get g raw "Message"))
        as E.
      cbv zeta in E. cbv zeta. rewrite E.
      set (m := Parser.first_nonempty _).
      unfold Parser.maxMsgLen. change (Z.to_nat (100 - 3)) with 97%nat.
      rewrite Z.gtb_ltb. destruct (Z.ltb_spec 100 (Parser.slen m)) as [Lt | Ge].
      * assert (Hl : Parser.slen (substring 0 97 m ++ "...") = 100).
        { unfold Parser.slen in *. rewrite length_append, length_prefix by lia.
          reflexivity. }
        split; [lia |]. split; [lia |]. intros _. split; [reflexivity | exact Hl].
      * split; [exact Ge |]. split; [reflexivity | lia].
    + split; [split; [discriminate | intros C; contradiction] |].
      split; [split; [intros _; split; [exact N | reflexivity] | reflexivity] |].
      intros _ C. discriminate.
Qed.

Lemma Parse_columns_witness :
  let g := Parser.mkGjson (fun _ => true)
             (fun _ key => if String.eqb key "message" then "started"%string
                           else ""%string) in
  three_lines <> [] /\
  exists e,
    Parser.Parse g three_lines 7 = (Some e, None) /\ Parser.Row e = 7.
Proof.
  cbv zeta.
  assert (H1 : three_lines <> []) by (vm_compute; discriminate).
  split; [exact H1 |].
  destruct (proj2 (proj2 (Parse_columns
              (Parser.mkGjson (fun _ => true)
                 (fun _ key => if String.eqb key "message"
                               then "started"%string else ""%string))
              three_lines 7)) H1 eq_refl) as (e & A & B & _).
  exists e. split; [exact A | exact B].
Defined.

(** Property X25.  Whatever [strings.ToUpper] does, [ShortenLevel]
    never returns more than 3 bytes, and exactly 3 for a level of at
    least 3 bytes.  [LevelColor] and [ShortenLevel] recognise the same
    levels: a level without a color is only truncated to its first 3
    bytes, and a level with a color (always 7 bytes, "#RRGGBB") gets one
    of the seven fixed codes. *)
Theorem level_codes_and_colors ToUpper level :
  Parser.slen (Parser.ShortenLevel ToUpper level) <= 3 /\
  (3 <= Parser.slen level ->
   Parser.slen (Parser.ShortenLevel ToUpper level) = 3) /\
  (Parser.LevelColor ToUpper level = ""%string ->
   Parser.ShortenLevel ToUpper level =
     if Parser.slen level >? 3 then substring 0 3 level else level) /\
  (Parser.LevelColor ToUpper level <> ""%string ->
   In (Parser.ShortenLevel ToUpper level)
      ["DBG"; "TRC"; "INF"; "WRN"; "ERR"; "FTL"; "PNC"]%string /\
   Parser.slen (Parser.LevelColor ToUpper level) = 7).
Proof.
  unfold Parser.ShortenLevel, Parser.LevelColor. cbv zeta.
  set (u := ToUpper level).
  assert (D : Parser.slen (if Parser.slen level >? 3 then substring 0 3 level
                           else level) <= 3 /\
              (3 <= Parser.slen level ->
               Parser.slen (if Parser.slen level >? 3 then substring 0 3 level
                            else level) = 3)).
  { rewrite Z.gtb_ltb. destruct (Z.ltb_spec 3 (Parser.slen level)) as [Lt | Ge].
    - unfold Parser.slen in *. rewrite length_prefix by lia. split; lia.
    - split; lia. }
  destruct (String.eqb_spec u "DEBUG") as [-> | N1].
  { cbn. repeat split; try lia; try discriminate; auto 10. }
  cbn [orb].
  destruct (String.eqb_spec u "TRACE") as [-> | N2].
  { cbn. repeat split; try lia; try discriminate; auto 10. }
  destruct (String.eqb_spec u "INFO") as [-> | N3].
  { cbn. repeat split; try lia; try discriminate; auto 10. }
  destruct (String.eqb_spec u "WARN") as [-> | N4].
  { cbn. repeat split; try lia; try discriminate; auto 10. }
  cbn [orb].
  destruct (String.eqb_spec u "WARNING") as [-> | N5].
  { cbn. repeat split; try lia; try discriminate; auto 10. }
  destruct (String.eqb_spec u "ERROR") as [-> | N6].
  { cbn. repeat split; try lia; try discriminate; auto 10. }
  destruct (String.eqb_spec u "FATAL") as [-> | N7].
  { cbn. repeat split; try lia; try discriminate; auto 10. }
  cbn [orb].
  destruct (String.eqb_spec u "PANIC") as [-> | N8].
  { cbn. repeat split; try lia; try discriminate; auto 10. }
  split; [apply D |]. split; [apply D |]. split; [reflexivity |].
  intros C. contradiction.
Qed.

(* ================================================================= *)
(** ** Proofs: the pool *)
Section Pooling.

Context {T : Type}.
Variable clean : T -> Prop.




End Pooling.

